(** * event-stream-video: the browser SDK's delivery core and the Go collector

    The development has three parts.
    - [JSON]: the tree of values that travels on the wire.
    - [SDK]: [video-analytics.js], its module-level variables gathered in one
      record [World] and every function of the SDK object as a function on it.
      A [fetch] whose promise is pending is an entry of [inflight]; the
      promise's [then]/[catch] handlers are functions applied when the
      environment completes the request.
    - [Server]: the Go collector (models, logger, handlers) over an append-only
      file whose writes may fail. *)

From Stdlib Require Import ZArith QArith List String Ascii Bool Lia.
From stdpp Require Import base option list gmap strings pretty.

Local Set Warnings "-register-all".
Local Open Scope Z_scope.
Local Open Scope string_scope.
Local Open Scope list_scope.

(** ** JSON values *)

Inductive JSON : Type :=
| JNull
| JBool (b : bool)
| JNumber (q : Q)
| JString (s : string)
| JArray (items : list JSON)
| JObject (members : list (string * JSON)).

(** [JSON.stringify] leaves out a property whose value is [undefined];
    the SDK's optional properties are [option]s and go through here. *)
Definition optMember (k : string) (v : option JSON) : list (string * JSON) :=
  match v with
  | Some j => [(k, j)]
  | None => []
  end.

(** A nullable string ([null] or a string). *)
Definition jNullable (s : option string) : JSON :=
  match s with
  | Some x => JString x
  | None => JNull
  end.

(** The value of the last member named [k], as a reader of the object that
    lets later members win sees it. *)
Fixpoint memberOf (k : string) (ms : list (string * JSON)) : option JSON :=
  match ms with
  | [] => None
  | (k', v) :: rest =>
      match memberOf k rest with
      | Some w => Some w
      | None => if String.eqb k k' then Some v else None
      end
  end.

Definition field (k : string) (j : JSON) : option JSON :=
  match j with
  | JObject ms => memberOf k ms
  | _ => None
  end.

(** * The SDK ([video-analytics.js]) *)

Module SDK.

(** ** Data *)

Record Config := mkConfig {
  apiEndpoint : string;
  batchSize : Z;
  batchInterval : Z;
  debug : bool;
  clientId : option string;
  apiKey : option string;
  autoDetect : bool;
  sampleRate_timeupdate : Q
}.

Definition DEFAULT_CONFIG : Config := {|
  apiEndpoint := "http://localhost:8080/api/v1/events";
  batchSize := 15;
  batchInterval := 5000;
  debug := false;
  clientId := None;
  apiKey := None;
  autoDetect := true;
  sampleRate_timeupdate := 2 # 10
|}.

(** The [options] argument of [init]: any subset of the configuration. *)
Record Options := mkOptions {
  o_apiEndpoint : option string;
  o_batchSize : option Z;
  o_batchInterval : option Z;
  o_debug : option bool;
  o_apiKey : option (option string);
  o_autoDetect : option bool;
  o_sampleRate_timeupdate : option Q
}.

Definition noOptions : Options := mkOptions None None None None None None None.

(** The object built by [trackEvent]; [handlePageUnload]'s final event has
    no [videoId], [playbackState] or [technical], and its context no title. *)
(** The player's answers at observation time, each as the value
    [JSON.stringify] writes for it. *)
Record PlaybackState := mkPlaybackState {
  currentTime : JSON;
  duration : JSON;
  paused : JSON;
  ended : JSON;
  playbackRate : JSON;
  volume : JSON;
  muted : JSON;
  fullscreen : JSON;
  networkState : JSON;
  readyState : JSON
}.

Record Technical := mkTechnical {
  userAgent : string;
  screenResolution : string;
  viewportSize : string;
  playerSize : string;
  connectionType : option string
}.

Record Context := mkContext {
  pageUrl : string;
  referrer : string;
  pageTitle : option string
}.

Record Event := mkEvent {
  eventName : string;
  videoId : option string;
  timestamp : string;
  ev_sessionId : string;
  userId : option string;
  anonymousId : string;
  playbackState : option PlaybackState;
  technical : option Technical;
  context : Context
}.

Record PlayerData := mkPlayerData {
  pd_videoId : string;
  lastTimeupdateTracked : Z
}.

(** What one callback reads from the browser: the clock, [Math.random()],
    the values the calls of [generateUUID] would return at each of its call
    sites, the player's state and the page. *)
Record Reading := mkReading {
  r_now : Z;
  r_iso : string;
  r_random : Q;
  r_uuid_session : string;
  r_uuid_anonymous : string;
  r_uuid_batch : string;
  r_currentUser : option string;
  r_playbackState : PlaybackState;
  r_technical : Technical;
  r_pageUrl : string;
  r_referrer : string;
  r_pageTitle : string
}.

(** The object handed to [JSON.stringify] by [sendBatch], [attemptRetry] and
    [handlePageUnload]. Only [attemptRetry] sets the last two properties. *)
Record Payload := mkPayload {
  p_clientId : option string;
  p_apiKey : option string;
  p_sessionId : string;
  p_batchId : string;
  p_events : list Event;
  p_timestamp : string;
  p_isRetry : option bool;
  p_retryAttempt : option Z
}.

Inductive RequestKind := FirstSend | RetrySend.

(** A [fetch] call whose promise has not settled. [rq_events] is the
    [events] constant its handlers close over. *)
Record Request := mkRequest {
  rq_kind : RequestKind;
  rq_url : string;
  rq_headers : list (string * string);
  rq_body : Payload;
  rq_events : list Event
}.

(** How a [fetch] settles: the promise rejects, or resolves with a response
    whose [ok] flag and whose body (valid JSON or not) decide the rest. *)
Inductive Outcome :=
| NetworkError
| Responded (ok : bool) (bodyIsJson : bool).

Record World := mkWorld {
  config : Config;
  eventQueue : list Event;
  retryQueue : list Event;
  retryAttempt : Z;
  retryTimeout : option Z;
  batchIntervalTimer : option Z;
  trackedPlayers : gmap positive PlayerData;
  isInitialized : bool;
  sessionStorage : option string;
  localStorage : option string;
  inflight : list Request;
  beacons : list (string * Payload)
}.

Definition initial : World := {|
  config := DEFAULT_CONFIG;
  eventQueue := [];
  retryQueue := [];
  retryAttempt := 0;
  retryTimeout := None;
  batchIntervalTimer := None;
  trackedPlayers := ∅;
  isInitialized := false;
  sessionStorage := None;
  localStorage := None;
  inflight := [];
  beacons := []
|}.

Definition set_config v w := mkWorld v (eventQueue w) (retryQueue w)
    (retryAttempt w) (retryTimeout w) (batchIntervalTimer w)
    (trackedPlayers w) (isInitialized w) (sessionStorage w) (localStorage w)
    (inflight w) (beacons w).
Definition set_eventQueue v w := mkWorld (config w) v (retryQueue w)
    (retryAttempt w) (retryTimeout w) (batchIntervalTimer w)
    (trackedPlayers w) (isInitialized w) (sessionStorage w) (localStorage w)
    (inflight w) (beacons w).
Definition set_retryQueue v w := mkWorld (config w) (eventQueue w) v
    (retryAttempt w) (retryTimeout w) (batchIntervalTimer w)
    (trackedPlayers w) (isInitialized w) (sessionStorage w) (localStorage w)
    (inflight w) (beacons w).
Definition set_retryAttempt v w := mkWorld (config w) (eventQueue w)
    (retryQueue w) v (retryTimeout w) (batchIntervalTimer w)
    (trackedPlayers w) (isInitialized w) (sessionStorage w) (localStorage w)
    (inflight w) (beacons w).
Definition set_retryTimeout v w := mkWorld (config w) (eventQueue w)
    (retryQueue w) (retryAttempt w) v (batchIntervalTimer w)
    (trackedPlayers w) (isInitialized w) (sessionStorage w) (localStorage w)
    (inflight w) (beacons w).
Definition set_batchIntervalTimer v w := mkWorld (config w) (eventQueue w)
    (retryQueue w) (retryAttempt w) (retryTimeout w) v (trackedPlayers w)
    (isInitialized w) (sessionStorage w) (localStorage w) (inflight w)
    (beacons w).
Definition set_trackedPlayers v w := mkWorld (config w) (eventQueue w)
    (retryQueue w) (retryAttempt w) (retryTimeout w) (batchIntervalTimer w) v
    (isInitialized w) (sessionStorage w) (localStorage w) (inflight w)
    (beacons w).
Definition set_isInitialized v w := mkWorld (config w) (eventQueue w)
    (retryQueue w) (retryAttempt w) (retryTimeout w) (batchIntervalTimer w)
    (trackedPlayers w) v (sessionStorage w) (localStorage w) (inflight w)
    (beacons w).
Definition set_sessionStorage v w := mkWorld (config w) (eventQueue w)
    (retryQueue w) (retryAttempt w) (retryTimeout w) (batchIntervalTimer w)
    (trackedPlayers w) (isInitialized w) v (localStorage w) (inflight w)
    (beacons w).
Definition set_localStorage v w := mkWorld (config w) (eventQueue w)
    (retryQueue w) (retryAttempt w) (retryTimeout w) (batchIntervalTimer w)
    (trackedPlayers w) (isInitialized w) (sessionStorage w) v (inflight w)
    (beacons w).
Definition set_inflight v w := mkWorld (config w) (eventQueue w)
    (retryQueue w) (retryAttempt w) (retryTimeout w) (batchIntervalTimer w)
    (trackedPlayers w) (isInitialized w) (sessionStorage w) (localStorage w) v
    (beacons w).
Definition set_beacons v w := mkWorld (config w) (eventQueue w) (retryQueue w)
    (retryAttempt w) (retryTimeout w) (batchIntervalTimer w)
    (trackedPlayers w) (isInitialized w) (sessionStorage w) (localStorage w)
    (inflight w) v.

(** JavaScript truthiness of a nullable string: [null] and the empty string
    are falsy. *)
Definition truthy (s : option string) : bool :=
  match s with
  | Some x => negb (String.eqb x "")
  | None => false
  end.

(** ** Identity *)

Definition getSessionId (r : Reading) (w : World) : string * World :=
  match sessionStorage w with
  | Some sid =>
      if truthy (Some sid) then (sid, w)
      else (r_uuid_session r, set_sessionStorage (Some (r_uuid_session r)) w)
  | None => (r_uuid_session r, set_sessionStorage (Some (r_uuid_session r)) w)
  end.

(** Returns [(userId, anonymousId)]; [window.currentUser?.id || null]. *)
Definition getUserIdentifiers (r : Reading) (w : World)
  : (option string * string) * World :=
  let uid := if truthy (r_currentUser r) then r_currentUser r else None in
  match localStorage w with
  | Some aid =>
      if truthy (Some aid) then ((uid, aid), w)
      else ((uid, r_uuid_anonymous r),
            set_localStorage (Some (r_uuid_anonymous r)) w)
  | None => ((uid, r_uuid_anonymous r),
             set_localStorage (Some (r_uuid_anonymous r)) w)
  end.

(** ** Retry scheduling *)

(** [Math.min(1000 * Math.pow(2, retryAttempt), 30000)]. The counter is a
    non-negative integer, on which the double arithmetic of the source is
    exact wherever the product is below the cap. *)
Definition backoffDelay (attempt : Z) : Z :=
  Z.min (1000 * 2 ^ attempt) 30000.

(** [setTimeout] returns a non-zero handle, so [retryTimeout] is truthy
    exactly while the timer is armed; the model keeps the timer's delay in
    the variable. *)
Definition scheduleRetry (w : World) : World :=
  match retryTimeout w with
  | Some _ => w
  | None =>
      let w1 := set_retryAttempt (retryAttempt w + 1) w in
      let delay := backoffDelay (retryAttempt w1) in
      set_retryTimeout (Some delay) w1
  end.

(** [retryAttempt.toString()]. *)
Definition toString (n : Z) : string := pretty n.

Definition Qlt_b (a b : Q) : bool :=
  (Qnum a * Zpos (Qden b) <? Qnum b * Zpos (Qden a))%Z.

(** ** Sending *)

Definition sendBatch (r : Reading) (w : World) : World :=
  match eventQueue w with
  | [] => w
  | _ :: _ =>
      let events := eventQueue w in
      let w1 := set_eventQueue [] w in
      let '(sid, w2) := getSessionId r w1 in
      let payload := {|
        p_clientId := clientId (config w2);
        p_apiKey := apiKey (config w2);
        p_sessionId := sid;
        p_batchId := r_uuid_batch r;
        p_events := events;
        p_timestamp := r_iso r;
        p_isRetry := None;
        p_retryAttempt := None |} in
      let rq := {|
        rq_kind := FirstSend;
        rq_url := apiEndpoint (config w2);
        rq_headers := [("Content-Type", "application/json");
                       ("X-Analytics-Client", "VideoAnalytics-SDK/1.0.0")];
        rq_body := payload;
        rq_events := events |} in
      set_inflight (inflight w2 ++ [rq]) w2
  end.

(** The promise chain of a [fetch]: the first [then] throws unless
    [response.ok], [response.json()] rejects on a body that is not JSON, and
    the [catch] receives every rejection. *)
Definition fulfilled (o : Outcome) : bool :=
  match o with
  | Responded true true => true
  | _ => false
  end.

(** [sendBatch]'s handlers, for the request that captured [events]. *)
Definition sendBatch_settled (events : list Event) (o : Outcome) (w : World)
  : World :=
  if fulfilled o then set_retryAttempt 0 w
  else scheduleRetry (set_retryQueue (retryQueue w ++ events) w).

Definition attemptRetry (r : Reading) (w : World) : World :=
  match retryQueue w with
  | [] => w
  | _ :: _ =>
      let events := retryQueue w in
      let w1 := set_retryQueue [] w in
      let '(sid, w2) := getSessionId r w1 in
      let payload := {|
        p_clientId := clientId (config w2);
        p_apiKey := apiKey (config w2);
        p_sessionId := sid;
        p_batchId := r_uuid_batch r;
        p_events := events;
        p_timestamp := r_iso r;
        p_isRetry := Some true;
        p_retryAttempt := Some (retryAttempt w2) |} in
      let rq := {|
        rq_kind := RetrySend;
        rq_url := apiEndpoint (config w2);
        rq_headers := [("Content-Type", "application/json");
                       ("X-Analytics-Client", "VideoAnalytics-SDK/1.0.0");
                       ("X-Retry-Attempt", toString (retryAttempt w2))];
        rq_body := payload;
        rq_events := events |} in
      set_inflight (inflight w2 ++ [rq]) w2
  end.

(** [attemptRetry]'s handlers, for the request that captured [events]. *)
Definition attemptRetry_settled (events : list Event) (o : Outcome) (w : World)
  : World :=
  if fulfilled o then set_retryAttempt 0 w
  else if retryAttempt w >=? 5 then set_retryAttempt 0 w
  else scheduleRetry (set_retryQueue (retryQueue w ++ events) w).

(** The callback given to [setTimeout] by [scheduleRetry]; it can only run
    while the timer is armed. *)
Definition retryTimerFires (r : Reading) (w : World) : option World :=
  match retryTimeout w with
  | None => None
  | Some _ => Some (attemptRetry r (set_retryTimeout None w))
  end.

(** ** Collecting *)

Definition priorityEvents : list string := ["play"; "pause"; "ended"; "error"].

Definition includes (names : list string) (x : string) : bool :=
  existsb (String.eqb x) names.

Definition trackEvent (player : positive) (name : string) (r : Reading)
  (w : World) : World :=
  if negb (isInitialized w) then w
  else
    match trackedPlayers w !! player with
    | None => w
    | Some playerData =>
        let '(sid, w1) := getSessionId r w in
        let '((uid, aid), w2) := getUserIdentifiers r w1 in
        let event := {|
          eventName := name;
          videoId := Some (pd_videoId playerData);
          timestamp := r_iso r;
          ev_sessionId := sid;
          userId := uid;
          anonymousId := aid;
          playbackState := Some (r_playbackState r);
          technical := Some (r_technical r);
          context := {| pageUrl := r_pageUrl r;
                        referrer := r_referrer r;
                        pageTitle := Some (r_pageTitle r) |} |} in
        let w3 := set_eventQueue (eventQueue w2 ++ [event]) w2 in
        if includes priorityEvents name
           || (Z.of_nat (length (eventQueue w3)) >=? batchSize (config w3))
        then sendBatch r w3
        else w3
    end.

Definition lifecycleEvents : list string :=
  ["play"; "pause"; "playing"; "waiting"; "seeking"; "seeked"; "ended";
   "loadstart"; "loadedmetadata"; "loadeddata"; "canplay"; "canplaythrough";
   "volumechange"; "fullscreenchange"; "error"; "abort"; "stalled"; "suspend";
   "emptied"; "ratechange"; "durationchange"; "progress"].

(** The listener registered for [timeupdate]. [r_random r] is the value of
    [Math.random()] and [r_now r] that of [Date.now()]. *)
Definition timeupdateAccepted (r : Reading) (rate : Q) (playerData : PlayerData)
  : bool :=
  Qlt_b (r_random r) rate
  && (r_now r - lastTimeupdateTracked playerData >? 500).

Definition onTimeupdate (player : positive) (r : Reading) (w : World) : World :=
  match trackedPlayers w !! player with
  | None => w
  | Some playerData =>
      if timeupdateAccepted r (sampleRate_timeupdate (config w)) playerData
      then
        let playerData' :=
          mkPlayerData (pd_videoId playerData) (r_now r) in
        trackEvent player "timeupdate" r
          (set_trackedPlayers (<[player := playerData']> (trackedPlayers w)) w)
      else w
  end.

(** [playerOk] is the test [player && typeof player.on === "function"]. *)
Definition trackPlayer (playerOk : bool) (player : positive) (vid : string)
  (r : Reading) (w : World) : World :=
  if negb playerOk then w
  else
    match trackedPlayers w !! player with
    | Some _ => w
    | None =>
        trackEvent player "playerInit" r
          (set_trackedPlayers
             (<[player := mkPlayerData vid 0]> (trackedPlayers w)) w)
    end.

(** [found] is what the scan of the page yields: the players of the
    [.video-js] elements with the identifier chosen for each; it is empty
    when [videojs] is undefined. *)
Definition detectPlayers (found : list (positive * string)) (r : Reading)
  (w : World) : World :=
  fold_left
    (fun acc '(player, vid) =>
       match trackedPlayers acc !! player with
       | Some _ => acc
       | None => trackPlayer true player vid r acc
       end)
    found w.

Definition mergeConfig (o : Options) (cid : option string) : Config := {|
  apiEndpoint := default (apiEndpoint DEFAULT_CONFIG) (o_apiEndpoint o);
  batchSize := default (batchSize DEFAULT_CONFIG) (o_batchSize o);
  batchInterval := default (batchInterval DEFAULT_CONFIG) (o_batchInterval o);
  debug := default (debug DEFAULT_CONFIG) (o_debug o);
  clientId := cid;
  apiKey := default (apiKey DEFAULT_CONFIG) (o_apiKey o);
  autoDetect := default (autoDetect DEFAULT_CONFIG) (o_autoDetect o);
  sampleRate_timeupdate :=
    default (sampleRate_timeupdate DEFAULT_CONFIG) (o_sampleRate_timeupdate o)
|}.

Definition init (cid : option string) (o : Options)
  (found : list (positive * string)) (r : Reading) (w : World) : World :=
  if isInitialized w then w
  else
    let w1 := set_config (mergeConfig o cid) w in
    if negb (truthy (clientId (config w1))) then w1
    else
      let w2 := set_batchIntervalTimer (Some (batchInterval (config w1))) w1 in
      let w3 := if autoDetect (config w2) then detectPlayers found r w2
                else w2 in
      set_isInitialized true w3.

(** ** Page teardown *)

(** [clearInterval] disarms the periodic timer; the queues are read, not
    emptied. *)
Definition handlePageUnload (r : Reading) (w : World) : World :=
  let w0 := set_batchIntervalTimer None w in
  let allEvents := eventQueue w0 ++ retryQueue w0 in
  match allEvents with
  | [] => w0
  | _ :: _ =>
      let '(sid, w1) := getSessionId r w0 in
      let '((uid, aid), w2) := getUserIdentifiers r w1 in
      let finalEvent := {|
        eventName := "pageUnload";
        videoId := None;
        timestamp := r_iso r;
        ev_sessionId := sid;
        userId := uid;
        anonymousId := aid;
        playbackState := None;
        technical := None;
        context := {| pageUrl := r_pageUrl r;
                      referrer := r_referrer r;
                      pageTitle := None |} |} in
      let allEvents' := allEvents ++ [finalEvent] in
      let '(sid', w3) := getSessionId r w2 in
      let payload := {|
        p_clientId := clientId (config w3);
        p_apiKey := apiKey (config w3);
        p_sessionId := sid';
        p_batchId := r_uuid_batch r;
        p_events := allEvents';
        p_timestamp := r_iso r;
        p_isRetry := None;
        p_retryAttempt := None |} in
      set_beacons
        (beacons w3 ++ [(apiEndpoint (config w3) +:+ "/beacon", payload)]) w3
  end.

(** ** The wire format: [JSON.stringify] on the payload *)

Definition playbackStateJSON (p : PlaybackState) : JSON :=
  JObject [("currentTime", currentTime p); ("duration", duration p);
           ("paused", paused p); ("ended", ended p);
           ("playbackRate", playbackRate p); ("volume", volume p);
           ("muted", muted p); ("fullscreen", fullscreen p);
           ("networkState", networkState p); ("readyState", readyState p)].

Definition technicalJSON (t : Technical) : JSON :=
  JObject [("userAgent", JString (userAgent t));
           ("screenResolution", JString (screenResolution t));
           ("viewportSize", JString (viewportSize t));
           ("playerSize", JString (playerSize t));
           ("connectionType", jNullable (connectionType t))].

Definition contextJSON (c : Context) : JSON :=
  JObject ([("pageUrl", JString (pageUrl c));
            ("referrer", JString (referrer c))]
           ++ optMember "pageTitle" (JString <$> pageTitle c)).

Definition eventJSON (e : Event) : JSON :=
  JObject ([("eventName", JString (eventName e))]
           ++ optMember "videoId" (JString <$> videoId e)
           ++ [("timestamp", JString (timestamp e));
               ("sessionId", JString (ev_sessionId e));
               ("userId", jNullable (userId e));
               ("anonymousId", JString (anonymousId e))]
           ++ optMember "playbackState" (playbackStateJSON <$> playbackState e)
           ++ optMember "technical" (technicalJSON <$> technical e)
           ++ [("context", contextJSON (context e))]).

Definition payloadJSON (p : Payload) : JSON :=
  JObject ([("clientId", jNullable (p_clientId p));
            ("apiKey", jNullable (p_apiKey p));
            ("sessionId", JString (p_sessionId p));
            ("batchId", JString (p_batchId p));
            ("events", JArray (map eventJSON (p_events p)));
            ("timestamp", JString (p_timestamp p))]
           ++ optMember "isRetry" (JBool <$> p_isRetry p)
           ++ optMember "retryAttempt"
                ((fun n => JNumber (inject_Z n)) <$> p_retryAttempt p)).

(** ** The event loop

    Every callback the SDK registers, and every call the host page can make,
    is an action; [step] runs it to completion, as the single-threaded
    scheduler does, and is [None] when the callback cannot run in [w]. *)

Inductive Action :=
| CallInit (cid : option string) (o : Options) (found : list (positive * string))
| CallTrackPlayer (playerOk : bool) (player : positive) (vid : string)
| Mutation (found : list (positive * string))
| PlayerEmits (player : positive) (name : string)
| PlayerTimeupdate (player : positive)
| IntervalFires
| RetryTimerFires
| Settles (i : nat) (o : Outcome)
| BeforeUnload.

Definition settle (rq : Request) (o : Outcome) (w : World) : World :=
  match rq_kind rq with
  | FirstSend => sendBatch_settled (rq_events rq) o w
  | RetrySend => attemptRetry_settled (rq_events rq) o w
  end.

Definition step (a : Action) (r : Reading) (w : World) : option World :=
  match a with
  | CallInit cid o found => Some (init cid o found r w)
  | CallTrackPlayer ok player vid => Some (trackPlayer ok player vid r w)
  | Mutation found =>
      if isInitialized w && autoDetect (config w)
      then Some (detectPlayers found r w) else None
  | PlayerEmits player name =>
      match trackedPlayers w !! player with
      | Some _ =>
          if includes lifecycleEvents name
          then Some (trackEvent player name r w) else None
      | None => None
      end
  | PlayerTimeupdate player =>
      match trackedPlayers w !! player with
      | Some _ => Some (onTimeupdate player r w)
      | None => None
      end
  | IntervalFires =>
      match batchIntervalTimer w with
      | Some _ => Some (sendBatch r w)
      | None => None
      end
  | RetryTimerFires => retryTimerFires r w
  | Settles i o =>
      match inflight w !! i with
      | Some rq => Some (settle rq o (set_inflight (delete i (inflight w)) w))
      | None => None
      end
  | BeforeUnload =>
      if isInitialized w then Some (handlePageUnload r w) else None
  end.

Fixpoint run (script : list (Action * Reading)) (w : World) : option World :=
  match script with
  | [] => Some w
  | (a, r) :: rest =>
      match step a r w with
      | Some w' => run rest w'
      | None => None
      end
  end.

(** One retry cycle that fails with nothing in between: the backoff timer
    fires, [attemptRetry] issues its request (the newest entry of
    [inflight]), and that request settles with [o]. *)
Definition retryRound (r : Reading) (o : Outcome) (w : World) : option World :=
  run [(RetryTimerFires, r); (Settles (length (inflight w)) o, r)] w.

Fixpoint retryRounds (rounds : list (Reading * Outcome)) (w : World)
  : option World :=
  match rounds with
  | [] => Some w
  | (r, o) :: rest =>
      match retryRound r o w with
      | Some w' => retryRounds rest w'
      | None => None
      end
  end.

(** A cycle whose request does not come back fulfilled. *)
Definition failing (ro : Reading * Outcome) : Prop := fulfilled (snd ro) = false.

(** A script in which no request ever comes back fulfilled: every first
    send and every retry fails. *)
Definition everySendFails (script : list (Action * Reading)) : Prop :=
  Forall (fun ar => match fst ar with
                    | Settles _ o => fulfilled o = false
                    | _ => True
                    end) script.

(** Tracking a list of occurrences one after the other. *)
Definition trackAll (calls : list (positive * string * Reading)) (w : World)
  : World :=
  fold_left (fun acc '(player, name, r) => trackEvent player name r acc)
            calls w.

Definition nameOf (call : positive * string * Reading) : string :=
  snd (fst call).

End SDK.

(** * The collector (Go) *)

Module Server.

(** ** [models] *)

(** A [map[string]interface{}]: [None] is the nil map, [Some ms] the map
    holding the members [ms], a later member of a name overriding an
    earlier one. Values are kept as the decoder delivers them. *)
Definition GoMap := option (list (string * JSON)).

Record Event := mkEvent {
  EventName : string;
  VideoID : string;
  E_Timestamp : string;
  E_SessionID : string;
  UserID : string;
  AnonymousID : string;
  PlaybackState : GoMap;
  Technical : GoMap;
  Context : GoMap;
  CustomData : string
}.

(** [Events]: [None] is the nil slice. *)
Record EventBatch := mkEventBatch {
  ClientID : string;
  APIKey : string;
  SessionID : string;
  BatchID : string;
  Events : option (list Event);
  Timestamp : string;
  IsRetry : bool
}.

Definition zeroEvent : Event := mkEvent "" "" "" "" "" "" None None None "".
Definition zeroBatch : EventBatch := mkEventBatch "" "" "" "" None "" false.

(** [now] is [time.Now().Format(time.RFC3339)]. *)
Definition NewEventBatch (clientID apiKey sessionID batchID : string)
  (events : option (list Event)) (now : string) : EventBatch :=
  {| ClientID := clientID; APIKey := apiKey; SessionID := sessionID;
     BatchID := batchID; Events := events; Timestamp := now;
     IsRetry := false |}.

(** ** [encoding/json] on these two structs, at the level of JSON values *)

Inductive EventField :=
| FEventName | FVideoID | FETimestamp | FESessionID | FUserID | FAnonymousID
| FPlaybackState | FTechnical | FContext | FCustomData.

Inductive BatchField :=
| FClientID | FAPIKey | FSessionID | FBatchID | FEvents | FTimestamp | FIsRetry.

(** The [json:"..."] tags. *)
Definition eventTags : list (string * EventField) :=
  [("eventName", FEventName); ("videoId", FVideoID);
   ("timestamp", FETimestamp); ("sessionId", FESessionID);
   ("userId", FUserID); ("anonymousId", FAnonymousID);
   ("playbackState", FPlaybackState); ("technical", FTechnical);
   ("context", FContext); ("customData", FCustomData)].

Definition batchTags : list (string * BatchField) :=
  [("clientId", FClientID); ("apiKey", FAPIKey); ("sessionId", FSessionID);
   ("batchId", FBatchID); ("events", FEvents); ("timestamp", FTimestamp);
   ("isRetry", FIsRetry)].

Definition lowerAscii (c : ascii) : ascii :=
  let n := nat_of_ascii c in
  if (Nat.leb 65 n && Nat.leb n 90)%bool then ascii_of_nat (n + 32) else c.

Fixpoint lower (s : string) : string :=
  match s with
  | EmptyString => EmptyString
  | String c rest => String (lowerAscii c) (lower rest)
  end.

(** Key matching without regard to letter case, on ASCII letters. *)
Definition equalFold (a b : string) : bool := String.eqb (lower a) (lower b).

(** The field a key of the input selects: the one whose tag is the key,
    failing that the first whose tag matches it up to case; no field for
    any other key, which the decoder skips. *)
Definition findField {F : Type} (tags : list (string * F)) (key : string)
  : option F :=
  match List.find (fun tf => String.eqb (fst tf) key) tags with
  | Some tf => Some (snd tf)
  | None =>
      match List.find (fun tf => equalFold (fst tf) key) tags with
      | Some tf => Some (snd tf)
      | None => None
      end
  end.

(** Decoding a value into a field that already holds [old]; [None] is an
    [UnmarshalTypeError]. [null] leaves a string or a bool untouched and
    makes a map or a slice nil; an object is merged into a map that is
    already there. *)
Definition intoString (v : JSON) (old : string) : option string :=
  match v with
  | JString s => Some s
  | JNull => Some old
  | _ => None
  end.

Definition intoBool (v : JSON) (old : bool) : option bool :=
  match v with
  | JBool b => Some b
  | JNull => Some old
  | _ => None
  end.

Definition intoMap (v : JSON) (old : GoMap) : option GoMap :=
  match v with
  | JObject ms => Some (Some (default [] old ++ ms))
  | JNull => Some None
  | _ => None
  end.

Definition setEventField (f : EventField) (v : JSON) (e : Event)
  : option Event :=
  match f with
  | FEventName => x ← intoString v (EventName e);
      Some (mkEvent x (VideoID e) (E_Timestamp e) (E_SessionID e) (UserID e)
          (AnonymousID e) (PlaybackState e) (Technical e) (Context e)
          (CustomData e))
  | FVideoID => x ← intoString v (VideoID e);
      Some (mkEvent (EventName e) x (E_Timestamp e) (E_SessionID e) (UserID e)
          (AnonymousID e) (PlaybackState e) (Technical e) (Context e)
          (CustomData e))
  | FETimestamp => x ← intoString v (E_Timestamp e);
      Some (mkEvent (EventName e) (VideoID e) x (E_SessionID e) (UserID e)
          (AnonymousID e) (PlaybackState e) (Technical e) (Context e)
          (CustomData e))
  | FESessionID => x ← intoString v (E_SessionID e);
      Some (mkEvent (EventName e) (VideoID e) (E_Timestamp e) x (UserID e)
          (AnonymousID e) (PlaybackState e) (Technical e) (Context e)
          (CustomData e))
  | FUserID => x ← intoString v (UserID e);
      Some (mkEvent (EventName e) (VideoID e) (E_Timestamp e) (E_SessionID e)
          x (AnonymousID e) (PlaybackState e) (Technical e) (Context e)
          (CustomData e))
  | FAnonymousID => x ← intoString v (AnonymousID e);
      Some (mkEvent (EventName e) (VideoID e) (E_Timestamp e) (E_SessionID e)
          (UserID e) x (PlaybackState e) (Technical e) (Context e)
          (CustomData e))
  | FPlaybackState => x ← intoMap v (PlaybackState e);
      Some (mkEvent (EventName e) (VideoID e) (E_Timestamp e) (E_SessionID e)
          (UserID e) (AnonymousID e) x (Technical e) (Context e)
          (CustomData e))
  | FTechnical => x ← intoMap v (Technical e);
      Some (mkEvent (EventName e) (VideoID e) (E_Timestamp e) (E_SessionID e)
          (UserID e) (AnonymousID e) (PlaybackState e) x (Context e)
          (CustomData e))
  | FContext => x ← intoMap v (Context e);
      Some (mkEvent (EventName e) (VideoID e) (E_Timestamp e) (E_SessionID e)
          (UserID e) (AnonymousID e) (PlaybackState e) (Technical e) x
          (CustomData e))
  | FCustomData => x ← intoString v (CustomData e);
      Some (mkEvent (EventName e) (VideoID e) (E_Timestamp e) (E_SessionID e)
          (UserID e) (AnonymousID e) (PlaybackState e) (Technical e)
          (Context e) x)
  end.

(** The members of an object are decoded in the order they come, each into
    the struct as the members before it left it. *)
Fixpoint decodeMembers {S F : Type} (tags : list (string * F))
  (set : F -> JSON -> S -> option S) (ms : list (string * JSON)) (acc : S)
  : option S :=
  match ms with
  | [] => Some acc
  | (k, v) :: rest =>
      match findField tags k with
      | None => decodeMembers tags set rest acc
      | Some f =>
          match set f v acc with
          | Some acc' => decodeMembers tags set rest acc'
          | None => None
          end
      end
  end.

Definition decodeEventInto (e : Event) (j : JSON) : option Event :=
  match j with
  | JObject ms => decodeMembers eventTags setEventField ms e
  | JNull => Some e
  | _ => None
  end.

(** An array into a slice: the length is reset and element [i] is decoded
    into what the slice held at [i], the zero value past its end. *)
Fixpoint decodeEvents (items : list JSON) (old : list Event)
  : option (list Event) :=
  match items with
  | [] => Some []
  | j :: rest =>
      match decodeEventInto (hd zeroEvent old) j with
      | Some e =>
          match decodeEvents rest (tl old) with
          | Some es => Some (e :: es)
          | None => None
          end
      | None => None
      end
  end.

Definition intoEvents (v : JSON) (old : option (list Event))
  : option (option (list Event)) :=
  match v with
  | JArray items => Some <$> decodeEvents items (default [] old)
  | JNull => Some None
  | _ => None
  end.

Definition setBatchField (f : BatchField) (v : JSON) (b : EventBatch)
  : option EventBatch :=
  match f with
  | FClientID => x ← intoString v (ClientID b);
      Some (mkEventBatch x (APIKey b) (SessionID b) (BatchID b) (Events b)
          (Timestamp b) (IsRetry b))
  | FAPIKey => x ← intoString v (APIKey b);
      Some (mkEventBatch (ClientID b) x (SessionID b) (BatchID b) (Events b)
          (Timestamp b) (IsRetry b))
  | FSessionID => x ← intoString v (SessionID b);
      Some (mkEventBatch (ClientID b) (APIKey b) x (BatchID b) (Events b)
          (Timestamp b) (IsRetry b))
  | FBatchID => x ← intoString v (BatchID b);
      Some (mkEventBatch (ClientID b) (APIKey b) (SessionID b) x (Events b)
          (Timestamp b) (IsRetry b))
  | FEvents => x ← intoEvents v (Events b);
      Some (mkEventBatch (ClientID b) (APIKey b) (SessionID b) (BatchID b) x
          (Timestamp b) (IsRetry b))
  | FTimestamp => x ← intoString v (Timestamp b);
      Some (mkEventBatch (ClientID b) (APIKey b) (SessionID b) (BatchID b)
          (Events b) x (IsRetry b))
  | FIsRetry => x ← intoBool v (IsRetry b);
      Some (mkEventBatch (ClientID b) (APIKey b) (SessionID b) (BatchID b)
          (Events b) (Timestamp b) x)
  end.

(** [decoder.Decode(&batch)] on a fresh [batch], given the value the
    decoder read from the body. *)
Definition decodeBatch (j : JSON) : option EventBatch :=
  match j with
  | JObject ms => decodeMembers batchTags setBatchField ms zeroBatch
  | JNull => Some zeroBatch
  | _ => None
  end.

Definition encodeMap (m : GoMap) : JSON :=
  match m with
  | Some ms => JObject ms
  | None => JNull
  end.

(** [omitempty] drops [customData] when empty and [isRetry] when false. *)
Definition encodeEvent (e : Event) : JSON :=
  JObject ([("eventName", JString (EventName e));
            ("videoId", JString (VideoID e));
            ("timestamp", JString (E_Timestamp e));
            ("sessionId", JString (E_SessionID e));
            ("userId", JString (UserID e));
            ("anonymousId", JString (AnonymousID e));
            ("playbackState", encodeMap (PlaybackState e));
            ("technical", encodeMap (Technical e));
            ("context", encodeMap (Context e))]
           ++ (if String.eqb (CustomData e) "" then []
               else [("customData", JString (CustomData e))])).

Definition encodeBatch (b : EventBatch) : JSON :=
  JObject ([("clientId", JString (ClientID b));
            ("apiKey", JString (APIKey b));
            ("sessionId", JString (SessionID b));
            ("batchId", JString (BatchID b));
            ("events", match Events b with
                       | Some es => JArray (map encodeEvent es)
                       | None => JNull
                       end);
            ("timestamp", JString (Timestamp b))]
           ++ (if IsRetry b then [("isRetry", JBool true)] else [])).

(** ** [logger] *)

Definition nl : string := String "010"%char "".

(** The log file is append-only. [coming] lists how the next calls of
    [Write] will end, in order (none listed: they succeed): a failing call
    has written the first [n] bytes of its data, at most all of them. *)
Inductive WriteResult := WriteOk | WriteFails (n : nat).

Record LogFile := mkLogFile {
  content : string;
  coming : list WriteResult
}.

Definition fileWrite (data : string) (f : LogFile) : LogFile * bool :=
  match coming f with
  | [] => (mkLogFile (content f +:+ data) [], true)
  | WriteOk :: rest => (mkLogFile (content f +:+ data) rest, true)
  | WriteFails n :: rest =>
      (mkLogFile (content f +:+ substring 0 n data) rest, false)
  end.

(** The text one logged event adds to the file, and that of several. *)
Definition entry (text : string) : string := text +:+ nl +:+ nl.

Fixpoint entries (texts : list string) : string :=
  match texts with
  | [] => ""
  | t :: rest => entry t +:+ entries rest
  end.

Inductive LogError :=
| MarshalEventFailed
| WriteEventFailed
| WriteLineBreaksFailed
| WriteHeaderFailed.

Section Logger.

(** [json.MarshalIndent(event, "", " ")]: the text, or an error. *)
Variable MarshalIndent : Event -> option string.

Definition logEvent (event : Event) (f : LogFile) : LogFile * option LogError :=
  match MarshalIndent event with
  | None => (f, Some MarshalEventFailed)
  | Some eventJSON =>
      let '(f1, ok1) := fileWrite eventJSON f in
      if negb ok1 then (f1, Some WriteEventFailed)
      else
        let '(f2, ok2) := fileWrite (nl +:+ nl) f1 in
        if negb ok2 then (f2, Some WriteLineBreaksFailed)
        else (f2, None)
  end.

(** The [for _, event := range batch.Events] loop. *)
Fixpoint logEvents (events : list Event) (f : LogFile)
  : LogFile * option LogError :=
  match events with
  | [] => (f, None)
  | event :: rest =>
      match logEvent event f with
      | (f1, Some err) => (f1, Some err)
      | (f1, None) => logEvents rest f1
      end
  end.

Definition batchInfo (batch : EventBatch) : string :=
  "--- Batch from client " +:+ ClientID batch +:+ " (Session: "
  +:+ SessionID batch +:+ ", Batch: " +:+ BatchID batch +:+ ") ---" +:+ nl.

Definition LogBatch (batch : EventBatch) (f : LogFile)
  : LogFile * option LogError :=
  let '(f1, ok) := fileWrite (batchInfo batch) f in
  if negb ok then (f1, Some WriteHeaderFailed)
  else logEvents (default [] (Events batch)) f1.

(** ** [api]: the two handlers *)

(** [Body] is what the decoder reads off the request body: a JSON value, or
    nothing when the body is empty or not JSON text. *)
Record HttpRequest := mkHttpRequest {
  Method : string;
  Body : option JSON
}.

(** A piece of response body: literal text, or the JSON text of a value
    followed by a line break, as [Encoder.Encode] writes it. *)
Inductive Chunk := Text (s : string) | Encoded (j : JSON).

Record ResponseWriter := mkResponseWriter {
  header : list (string * string);
  status : option Z;
  body : list Chunk
}.

Definition freshResponse : ResponseWriter := mkResponseWriter [] None [].

Definition headerSet (k v : string) (w : ResponseWriter) : ResponseWriter :=
  mkResponseWriter
    ((k, v) :: List.filter (fun kv => negb (String.eqb (fst kv) k)) (header w))
    (status w) (body w).

Definition headerDel (k : string) (w : ResponseWriter) : ResponseWriter :=
  mkResponseWriter
    (List.filter (fun kv => negb (String.eqb (fst kv) k)) (header w))
    (status w) (body w).

(** Only the first [WriteHeader] counts. *)
Definition WriteHeader (code : Z) (w : ResponseWriter) : ResponseWriter :=
  match status w with
  | Some _ => w
  | None => mkResponseWriter (header w) (Some code) (body w)
  end.

Definition Write (c : Chunk) (w : ResponseWriter) : ResponseWriter :=
  let w1 := WriteHeader 200 w in
  mkResponseWriter (header w1) (status w1) (body w1 ++ [c]).

(** [http.Error]. *)
Definition httpError (msg : string) (code : Z) (w : ResponseWriter)
  : ResponseWriter :=
  let w1 := headerDel "Content-Length" w in
  let w2 := headerSet "Content-Type" "text/plain; charset=utf-8" w1 in
  let w3 := headerSet "X-Content-Type-Options" "nosniff" w2 in
  Write (Text (msg +:+ nl)) (WriteHeader code w3).

(** The status the client receives: a handler that returns without having
    written anything answers 200 with an empty body. *)
Definition statusCode (w : ResponseWriter) : Z := default 200 (status w).

Definition StatusOK : Z := 200.
Definition StatusNoContent : Z := 204.
Definition StatusBadRequest : Z := 400.
Definition StatusMethodNotAllowed : Z := 405.
Definition StatusInternalServerError : Z := 500.

Definition decodeBody (r : HttpRequest) : option EventBatch :=
  match Body r with
  | Some j => decodeBatch j
  | None => None
  end.

Definition HandleEvents (r : HttpRequest) (f : LogFile) (w : ResponseWriter)
  : LogFile * ResponseWriter :=
  if negb (String.eqb (Method r) "POST")
  then (f, httpError "Method not allowed" StatusMethodNotAllowed w)
  else
    match decodeBody r with
    | None => (f, httpError "Invalid request body" StatusBadRequest w)
    | Some batch =>
        match LogBatch batch f with
        | (f1, Some _) =>
            (f1, httpError "Internal server error" StatusInternalServerError w)
        | (f1, None) =>
            let w1 := headerSet "Content-Type" "application/json" w in
            let w2 := WriteHeader StatusOK w1 in
            (f1, Write (Encoded (JObject
                   [("message",
                     JString ("Processed "
                              +:+ pretty (length (default [] (Events batch)))
                              +:+ " events"));
                    ("status", JString "success")])) w2)
        end
    end.

Definition HandleBeacons (r : HttpRequest) (f : LogFile) (w : ResponseWriter)
  : LogFile * ResponseWriter :=
  if negb (String.eqb (Method r) "POST")
  then (f, httpError "Method not allowed" StatusMethodNotAllowed w)
  else
    match decodeBody r with
    | None => (f, w)
    | Some batch =>
        match LogBatch batch f with
        | (f1, Some _) => (f1, w)
        | (f1, None) => (f1, WriteHeader StatusNoContent w)
        end
    end.

End Logger.

End Server.

(** * Sample data *)

Module Samples.
Import SDK.

Definition playing : PlaybackState := {|
  currentTime := JNumber (7 # 2);
  duration := JNumber (inject_Z 120);
  paused := JBool false;
  ended := JBool false;
  playbackRate := JNumber (inject_Z 1);
  volume := JNumber (1 # 2);
  muted := JBool false;
  fullscreen := JBool false;
  networkState := JNumber (inject_Z 1);
  readyState := JNumber (inject_Z 4)
|}.

Definition desktop : Technical := {|
  userAgent := "Mozilla/5.0";
  screenResolution := "1920x1080";
  viewportSize := "1280x720";
  playerSize := "640x360";
  connectionType := Some "4g"
|}.

(** A reading at clock value [now] with random draw [draw]. *)
Definition reading (now : Z) (draw : Q) : Reading := {|
  r_now := now;
  r_iso := "2024-05-01T10:00:00.000Z";
  r_random := draw;
  r_uuid_session := "11111111-1111-4111-8111-111111111111";
  r_uuid_anonymous := "22222222-2222-4222-9222-222222222222";
  r_uuid_batch := "33333333-3333-4333-a333-333333333333";
  r_currentUser := None;
  r_playbackState := playing;
  r_technical := desktop;
  r_pageUrl := "http://localhost:8080/index.html";
  r_referrer := "";
  r_pageTitle := "Demo"
|}.

Definition r0 : Reading := reading 1000 (1 # 10).

(** The SDK after [init("c1")] on a page without players; after
    [trackPlayer(player, "video-1")], with [playerInit] pending; and after
    the periodic timer has flushed that event and the collector has
    acknowledged it. *)
Definition booted : World := init (Some "c1") noOptions [] r0 initial.

Definition tracking : World := trackPlayer true 1%positive "video-1" r0 booted.

Definition quiet : World :=
  default tracking
    (run [(IntervalFires, r0); (Settles 0 (Responded true true), r0)]
         tracking).

Definition sampleEvent (name : string) : Event := {|
  eventName := name;
  videoId := Some "video-1";
  timestamp := "2024-05-01T10:00:00.000Z";
  ev_sessionId := "11111111-1111-4111-8111-111111111111";
  userId := None;
  anonymousId := "22222222-2222-4222-9222-222222222222";
  playbackState := Some playing;
  technical := Some desktop;
  context := {| pageUrl := "http://localhost:8080/index.html";
                referrer := "";
                pageTitle := Some "Demo" |}
|}.

(** A run in which a first send fails while the retry of attempt five is
    still in flight: [play] is sent and fails, four retries fail, the fifth
    retry is issued, [pause] is sent and fails before that retry settles. *)
Definition overlappingFailures : list (Action * Reading) :=
  [(PlayerEmits 1 "play", r0); (Settles 0 NetworkError, r0)]
  ++ concat (replicate 4 [(RetryTimerFires, r0); (Settles 0 NetworkError, r0)])
  ++ [(RetryTimerFires, r0);
      (PlayerEmits 1 "pause", r0);
      (Settles 1 NetworkError, r0)].

End Samples.

(** * From the SDK's payload to the collector's model *)

Module Wire.

Definition members (j : JSON) : list (string * JSON) :=
  match j with
  | JObject ms => ms
  | _ => []
  end.

(** The [models.Event] that an event of the SDK turns into: a missing or
    [null] string is the empty string, a missing object the nil map. *)
Definition received (e : SDK.Event) : Server.Event := {|
  Server.EventName := SDK.eventName e;
  Server.VideoID := default "" (SDK.videoId e);
  Server.E_Timestamp := SDK.timestamp e;
  Server.E_SessionID := SDK.ev_sessionId e;
  Server.UserID := default "" (SDK.userId e);
  Server.AnonymousID := SDK.anonymousId e;
  Server.PlaybackState :=
    (fun p => members (SDK.playbackStateJSON p)) <$> SDK.playbackState e;
  Server.Technical :=
    (fun t => members (SDK.technicalJSON t)) <$> SDK.technical e;
  Server.Context := Some (members (SDK.contextJSON (SDK.context e)));
  Server.CustomData := ""
|}.

Definition receivedBatch (p : SDK.Payload) : Server.EventBatch := {|
  Server.ClientID := default "" (SDK.p_clientId p);
  Server.APIKey := default "" (SDK.p_apiKey p);
  Server.SessionID := SDK.p_sessionId p;
  Server.BatchID := SDK.p_batchId p;
  Server.Events := Some (map received (SDK.p_events p));
  Server.Timestamp := SDK.p_timestamp p;
  Server.IsRetry := default false (SDK.p_isRetry p)
|}.

(** The payload [attemptRetry] builds when the counter is [n]. *)
Definition retryPayload (n : Z) : SDK.Payload := {|
  SDK.p_clientId := Some "c1";
  SDK.p_apiKey := None;
  SDK.p_sessionId := "11111111-1111-4111-8111-111111111111";
  SDK.p_batchId := "33333333-3333-4333-a333-333333333333";
  SDK.p_events := [Samples.sampleEvent "play"];
  SDK.p_timestamp := "2024-05-01T10:00:05.000Z";
  SDK.p_isRetry := Some true;
  SDK.p_retryAttempt := Some n
|}.

End Wire.

Module ServerSamples.
Import Server.

(** A stand-in for [json.MarshalIndent]: it renders the event's name, and
    fails on the event named [unmarshalable]. *)
Definition marshal (e : Event) : option string :=
  if String.eqb (EventName e) "unmarshalable" then None
  else Some ("{ eventName: " +:+ EventName e +:+ " }").

Definition named (name : string) : Event :=
  mkEvent name "video-1" "2024-05-01T10:00:00.000Z" "s1" "" "a1"
          None None None "".

Definition twoEvents : EventBatch :=
  mkEventBatch "c1" "" "s1" "b1" (Some [named "play"; named "pause"])
               "2024-05-01T10:00:05.000Z" false.

Definition emptyLog : LogFile := mkLogFile "" [].

(** A disk that takes the header and the first event, then fails three
    bytes into the second event. *)
Definition failingLog : LogFile :=
  mkLogFile "" [WriteOk; WriteOk; WriteOk; WriteFails 3].

Definition post (j : JSON) : HttpRequest := mkHttpRequest "POST" (Some j).

End ServerSamples.

(** * Properties of the SDK *)

Module SDKFacts.
Import SDK.

(** ** Auxiliary facts *)

Lemma set_sessionStorage_same (w : World) :
  set_sessionStorage (sessionStorage w) w = w.
Proof. destruct w; reflexivity. Qed.

Lemma set_localStorage_same (w : World) :
  set_localStorage (localStorage w) w = w.
Proof. destruct w; reflexivity. Qed.

(** [getSessionId] touches the session storage only. *)
Lemma getSessionId_frame (r : Reading) (w : World) :
  exists sid s, getSessionId r w = (sid, set_sessionStorage s w).
Proof.
  unfold getSessionId.
  destruct (sessionStorage w) as [sid|] eqn:E.
  - destruct (truthy (Some sid)).
    + exists sid, (Some sid). rewrite <- E, set_sessionStorage_same. reflexivity.
    + eauto.
  - eauto.
Qed.

(** [getUserIdentifiers] touches the local storage only. *)
Lemma getUserIdentifiers_frame (r : Reading) (w : World) :
  exists uid aid s,
    getUserIdentifiers r w = ((uid, aid), set_localStorage s w).
Proof.
  unfold getUserIdentifiers.
  destruct (localStorage w) as [aid|] eqn:E.
  - destruct (truthy (Some aid)).
    + eexists _, aid, (Some aid).
      rewrite <- E, set_localStorage_same. reflexivity.
    + eauto.
  - eauto.
Qed.

Ltac session r w :=
  let sid := fresh "sid" in
  let s := fresh "s" in
  let E := fresh "E" in
  destruct (getSessionId_frame r w) as (sid & s & E); rewrite E; clear E.

Ltac identifiers r w :=
  let uid := fresh "uid" in
  let aid := fresh "aid" in
  let s := fresh "s" in
  let E := fresh "E" in
  destruct (getUserIdentifiers_frame r w) as (uid & aid & s & E);
  rewrite E; clear E.

Lemma fulfilled_false_settled (events : list Event) (o : Outcome) (w : World) :
  fulfilled o = false ->
  sendBatch_settled events o w
  = scheduleRetry (set_retryQueue (retryQueue w ++ events) w).
Proof. intros H. unfold sendBatch_settled. rewrite H. reflexivity. Qed.

(** What [sendBatch] does to a pending queue that is not empty. *)
Lemma sendBatch_nonempty (r : Reading) (w : World) :
  eventQueue w <> [] ->
  exists rq s,
    sendBatch r w
    = set_inflight (inflight w ++ [rq])
        (set_sessionStorage s (set_eventQueue [] w))
    /\ rq_kind rq = FirstSend
    /\ rq_events rq = eventQueue w
    /\ p_events (rq_body rq) = eventQueue w
    /\ p_isRetry (rq_body rq) = None.
Proof.
  intros Hne. unfold sendBatch.
  destruct (eventQueue w) as [|e q] eqn:Eq; [congruence|].
  session r (set_eventQueue [] w).
  eexists _, _. split; [reflexivity|]. simpl. auto.
Qed.

Lemma sendBatch_empty (r : Reading) (w : World) :
  eventQueue w = [] -> sendBatch r w = w.
Proof. intros H. unfold sendBatch. rewrite H. reflexivity. Qed.

(** What [attemptRetry] does to a retry queue that is not empty. *)
Lemma attemptRetry_nonempty (r : Reading) (w : World) :
  retryQueue w <> [] ->
  exists rq s,
    attemptRetry r w
    = set_inflight (inflight w ++ [rq])
        (set_sessionStorage s (set_retryQueue [] w))
    /\ rq_kind rq = RetrySend
    /\ rq_events rq = retryQueue w
    /\ p_events (rq_body rq) = retryQueue w
    /\ p_isRetry (rq_body rq) = Some true
    /\ p_retryAttempt (rq_body rq) = Some (retryAttempt w).
Proof.
  intros Hne. unfold attemptRetry.
  destruct (retryQueue w) as [|e q] eqn:Eq; [congruence|].
  session r (set_retryQueue [] w).
  eexists _, _. split; [reflexivity|]. simpl. auto.
Qed.

(** ** Backoff *)

(** C1. When [scheduleRetry] arms the timer, the counter has just been
    incremented to [n] and the delay is [min(1000 * 2^n, 30000)] ms; for
    [n] = 1..5 these delays are 2000, 4000, 8000, 16000, 30000. *)
Theorem scheduleRetry_backoff_delay (w : World) :
  retryTimeout w = None ->
  retryAttempt (scheduleRetry w) = retryAttempt w + 1
  /\ retryTimeout (scheduleRetry w)
     = Some (Z.min (1000 * 2 ^ retryAttempt (scheduleRetry w)) 30000)
  /\ map (fun n =>
            retryTimeout (scheduleRetry (set_retryAttempt (n - 1) w)))
         [1; 2; 3; 4; 5]
     = [Some 2000; Some 4000; Some 8000; Some 16000; Some 30000].
Proof.
  intros H. unfold scheduleRetry. rewrite H. simpl.
  repeat split. rewrite H. reflexivity.
Qed.

Lemma scheduleRetry_backoff_delay_witness :
  retryAttempt (scheduleRetry (set_retryAttempt 4 initial)) = 5
  /\ retryTimeout (scheduleRetry (set_retryAttempt 4 initial)) = Some 30000.
Proof.
  destruct (scheduleRetry_backoff_delay (set_retryAttempt 4 initial))
    as (Ha & Hd & _); [reflexivity|].
  split; [exact Ha | rewrite Hd; reflexivity].
Defined.

(** ** Idempotence of scheduling *)

(** C6. While a retry timer is armed, [scheduleRetry] changes nothing, and
    the failure handler of a send only appends the failed events to the
    retry queue: timer, delay and counter stay as they were. *)
Theorem scheduleRetry_idempotent_while_scheduled (w : World) (delay : Z) :
  retryTimeout w = Some delay ->
  scheduleRetry w = w
  /\ scheduleRetry (scheduleRetry w) = scheduleRetry w
  /\ (forall (events : list Event) (o : Outcome),
        fulfilled o = false ->
        let w' := sendBatch_settled events o w in
        w' = set_retryQueue (retryQueue w ++ events) w
        /\ retryTimeout w' = Some delay
        /\ retryAttempt w' = retryAttempt w)
  /\ (forall (events : list Event) (o : Outcome),
        fulfilled o = false ->
        let w' := attemptRetry_settled events o w in
        retryTimeout w' = Some delay
        /\ (retryAttempt w' = retryAttempt w \/ retryAttempt w' = 0)).
Proof.
  intros H.
  assert (Hs : forall q, scheduleRetry (set_retryQueue q w)
                         = set_retryQueue q w).
  { intros q. unfold scheduleRetry. simpl. rewrite H. reflexivity. }
  assert (H1 : scheduleRetry w = w).
  { unfold scheduleRetry. rewrite H. reflexivity. }
  split; [exact H1|]. split; [rewrite H1; exact H1|]. split.
  - intros events o Ho w'. subst w'.
    rewrite fulfilled_false_settled by exact Ho. rewrite Hs.
    simpl. auto.
  - intros events o Ho w'. subst w'. unfold attemptRetry_settled.
    rewrite Ho. destruct (retryAttempt w >=? 5).
    + simpl. auto.
    + rewrite Hs. simpl. auto.
Qed.

(** ** Exhaustion of retries *)

(** The handler of a failed retry when the counter is at (or beyond) five:
    nothing is put back, nothing is scheduled, the counter restarts. *)
Lemma attemptRetry_settled_gives_up (events : list Event) (o : Outcome)
  (w : World) :
  fulfilled o = false -> 5 <= retryAttempt w ->
  attemptRetry_settled events o w = set_retryAttempt 0 w.
Proof.
  intros Ho Hn. unfold attemptRetry_settled. rewrite Ho.
  destruct (retryAttempt w >=? 5) eqn:E; [reflexivity|]. lia.
Qed.

(** Below five, the failed events go back and the next cycle is scheduled. *)
Lemma attemptRetry_settled_reschedules (events : list Event) (o : Outcome)
  (w : World) :
  fulfilled o = false -> retryAttempt w < 5 -> retryTimeout w = None ->
  attemptRetry_settled events o w
  = set_retryTimeout (Some (backoffDelay (retryAttempt w + 1)))
      (set_retryAttempt (retryAttempt w + 1)
         (set_retryQueue (retryQueue w ++ events) w)).
Proof.
  intros Ho Hn Ht. unfold attemptRetry_settled. rewrite Ho.
  destruct (retryAttempt w >=? 5) eqn:E; [lia|].
  unfold scheduleRetry. simpl. rewrite Ht. reflexivity.
Qed.

(** One failing retry cycle from a world whose timer is armed. *)
Lemma retryRound_failing (r : Reading) (o : Outcome) (w : World) (d : Z) :
  retryTimeout w = Some d -> retryQueue w <> [] -> fulfilled o = false ->
  exists s,
    retryRound r o w
    = Some
        (if retryAttempt w >=? 5
         then set_retryAttempt 0
                (set_retryQueue []
                   (set_retryTimeout None (set_sessionStorage s w)))
         else set_retryTimeout (Some (backoffDelay (retryAttempt w + 1)))
                (set_retryAttempt (retryAttempt w + 1)
                   (set_sessionStorage s w))).
Proof.
  intros Ht Hq Ho. unfold retryRound, run, step, retryTimerFires.
  rewrite Ht.
  destruct (attemptRetry_nonempty r (set_retryTimeout None w) Hq)
    as (rq & s & E & Hk & He & _).
  rewrite E. exists s. simpl in *.
  rewrite list_lookup_middle by reflexivity.
  rewrite delete_middle, app_nil_r.
  unfold settle. rewrite Hk, He. f_equal.
  destruct (retryAttempt w >=? 5) eqn:E5.
  - rewrite attemptRetry_settled_gives_up by (simpl; auto; lia).
    reflexivity.
  - rewrite attemptRetry_settled_reschedules by (simpl; auto; lia).
    reflexivity.
Qed.

(** A cycle cannot start while no timer is armed. *)
Lemma retryRound_unarmed (r : Reading) (o : Outcome) (w : World) :
  retryTimeout w = None -> retryRound r o w = None.
Proof.
  intros H. unfold retryRound, run, step, retryTimerFires.
  rewrite H. reflexivity.
Qed.

(** The run of consecutive failing cycles from a scheduled world whose
    counter is [n]: the counter climbs by one per cycle while the events
    stay queued, and the cycle performed at five drops them. *)
Lemma retryRounds_climb (rounds : list (Reading * Outcome)) :
  forall (w : World) (d : Z),
    Forall failing rounds ->
    retryTimeout w = Some d -> retryQueue w <> [] ->
    retryAttempt w + Z.of_nat (length rounds) <= 5 ->
    exists w',
      retryRounds rounds w = Some w'
      /\ retryAttempt w' = retryAttempt w + Z.of_nat (length rounds)
      /\ retryQueue w' = retryQueue w
      /\ (rounds <> [] ->
          retryTimeout w' = Some (backoffDelay (retryAttempt w')))
      /\ (rounds = [] -> retryTimeout w' = Some d)
      /\ inflight w' = inflight w.
Proof.
  induction rounds as [|[r o] rest IH]; intros w d Hf Ht Hq Hn.
  - exists w. simpl. repeat split; auto; try lia. congruence.
  - inversion Hf as [|? ? Ho Hrest]; subst. simpl in Hn.
    destruct (retryRound_failing r o w d Ht Hq Ho) as (s & E).
    destruct (retryAttempt w >=? 5) eqn:E5; [lia|].
    simpl. rewrite E.
    destruct (IH (set_retryTimeout (Some (backoffDelay (retryAttempt w + 1)))
                    (set_retryAttempt (retryAttempt w + 1)
                       (set_sessionStorage s w)))
                 (backoffDelay (retryAttempt w + 1)) Hrest)
      as (w' & Er & Ha & Hqq & Htt & Ht0 & Hi);
      [simpl; reflexivity | simpl; exact Hq | simpl; lia |].
    simpl in *. exists w'. rewrite Er. repeat split; auto; try lia.
    + intros _. destruct rest as [|x rest'].
      * rewrite Ht0 by reflexivity. rewrite Ha. simpl.
        f_equal. f_equal. lia.
      * apply Htt. congruence.
    + congruence.
Qed.

Lemma retryRounds_app (a b : list (Reading * Outcome)) (w : World) :
  retryRounds (a ++ b) w
  = match retryRounds a w with
    | Some w' => retryRounds b w'
    | None => None
    end.
Proof.
  revert w. induction a as [|[r o] a IH]; intros w; simpl; [reflexivity|].
  destruct (retryRound r o w); [apply IH | reflexivity].
Qed.

Lemma retryRounds_unarmed (rounds : list (Reading * Outcome)) (w : World) :
  retryTimeout w = None -> rounds <> [] -> retryRounds rounds w = None.
Proof.
  intros H Hne. destruct rounds as [|[r o] rest]; [congruence|].
  simpl. rewrite retryRound_unarmed by exact H. reflexivity.
Qed.

(** C2, as amended. A batch fails from the idle state and every retry
    that follows fails too, no other send settling in between. Through the
    first four retry cycles the events are put back and the counter climbs
    1, 2, ..., 5; when the retry performed at counter five fails, the
    events are not put back (the retry queue stays empty), the counter is
    reset to 0 and no timer is armed, so that no sixth cycle can run; the
    counter is at most five at every point of the run. *)
Theorem retries_exhaust_at_five (w : World) (events : list Event)
  (o0 : Outcome) (rounds : list (Reading * Outcome)) :
  retryAttempt w = 0 -> retryTimeout w = None -> retryQueue w = [] ->
  events <> [] -> fulfilled o0 = false -> Forall failing rounds ->
  let w1 := sendBatch_settled events o0 w in
  (forall k, (k <= 4)%nat -> (k <= length rounds)%nat ->
     exists wk,
       retryRounds (take k rounds) w1 = Some wk
       /\ retryAttempt wk = Z.of_nat k + 1
       /\ retryQueue wk = events
       /\ retryTimeout wk = Some (backoffDelay (Z.of_nat k + 1)))
  /\ ((5 <= length rounds)%nat ->
      exists w5,
        retryRounds (take 5 rounds) w1 = Some w5
        /\ retryAttempt w5 = 0
        /\ retryQueue w5 = []
        /\ retryTimeout w5 = None
        /\ inflight w5 = inflight w
        /\ forall r o, retryRound r o w5 = None)
  /\ ((5 < length rounds)%nat -> retryRounds rounds w1 = None)
  /\ (forall k wk,
        retryRounds (take k rounds) w1 = Some wk -> 0 <= retryAttempt wk <= 5).
Proof.
  intros Ha Ht Hq Hne Ho Hf w1.
  assert (Ew1 : w1 = set_retryTimeout (Some (backoffDelay 1))
                       (set_retryAttempt 1 (set_retryQueue events w))).
  { subst w1. rewrite fulfilled_false_settled by exact Ho.
    unfold scheduleRetry. simpl. rewrite Ht, Ha, Hq. reflexivity. }
  assert (Climb : forall k, (k <= 4)%nat -> (k <= length rounds)%nat ->
     exists wk,
       retryRounds (take k rounds) w1 = Some wk
       /\ retryAttempt wk = Z.of_nat k + 1
       /\ retryQueue wk = events
       /\ retryTimeout wk = Some (backoffDelay (Z.of_nat k + 1))
       /\ inflight wk = inflight w).
  { intros k Hk Hl.
    destruct (retryRounds_climb (take k rounds) w1 (backoffDelay 1))
      as (wk & Er & Hak & Hqk & Htk & Ht0 & Hi).
    - apply Forall_take, Hf.
    - rewrite Ew1. reflexivity.
    - rewrite Ew1. simpl. exact Hne.
    - rewrite length_take_le by exact Hl. rewrite Ew1. simpl. lia.
    - rewrite length_take_le in Hak by exact Hl.
      rewrite Ew1 in Hak, Hqk, Hi. simpl in Hak, Hqk, Hi.
      exists wk. repeat split; auto; try lia.
      destruct k as [|k'].
      + rewrite Ht0 by reflexivity. reflexivity.
      + rewrite Htk.
        * do 2 f_equal. lia.
        * intros E. apply (f_equal (@length _)) in E.
          rewrite length_take_le in E by exact Hl. discriminate. }
  assert (Drop : (5 <= length rounds)%nat ->
      exists w5,
        retryRounds (take 5 rounds) w1 = Some w5
        /\ retryAttempt w5 = 0
        /\ retryQueue w5 = []
        /\ retryTimeout w5 = None
        /\ inflight w5 = inflight w).
  { intros Hl.
    destruct (Climb 4%nat) as (w4 & E4 & Ha4 & Hq4 & Ht4 & Hi4); [lia..|].
    change 5%nat with (4 + 1)%nat. rewrite <- take_take_drop.
    rewrite retryRounds_app, E4.
    destruct (drop 4 rounds) as [|[r o] rest] eqn:Ed.
    { apply (f_equal (@length _)) in Ed. rewrite length_drop in Ed.
      simpl in Ed. lia. }
    assert (Hfo : fulfilled o = false).
    { assert (Hd : Forall failing (drop 4 rounds)) by apply Forall_drop, Hf.
      rewrite Ed in Hd. inversion Hd; subst. assumption. }
    simpl.
    destruct (retryRound_failing r o w4 _ Ht4) as (s & E); [congruence|exact Hfo|].
    rewrite E, Ha4. simpl. eexists. split; [reflexivity|].
    simpl. auto. }
  split; [|split; [|split]].
  - intros k Hk Hl.
    destruct (Climb k Hk Hl) as (wk & ? & ? & ? & ? & ?). eauto.
  - intros Hl. destruct (Drop Hl) as (w5 & E5 & Ha5 & Hq5 & Ht5 & Hi5).
    exists w5. repeat split; auto.
    intros r o. apply retryRound_unarmed, Ht5.
  - intros Hl. destruct Drop as (w5 & E5 & Ha5 & Hq5 & Ht5 & Hi5); [lia|].
    rewrite <- (take_drop 5 rounds), retryRounds_app, E5.
    apply retryRounds_unarmed; [exact Ht5|].
    intros E. apply (f_equal (@length _)) in E. rewrite length_drop in E.
    simpl in E. lia.
  - intros k wk Ek.
    destruct (Nat.le_gt_cases (length rounds) 4) as [Hs|Hs].
    + destruct (Nat.le_gt_cases k (length rounds)) as [Hk|Hk].
      * destruct (Climb k) as (wk' & E & Hak & _); [lia..|].
        rewrite E in Ek. inversion Ek; subst. lia.
      * rewrite take_ge in Ek by lia.
        destruct (Climb (length rounds)) as (wk' & E & Hak & _); [lia..|].
        rewrite take_ge in E by lia.
        rewrite E in Ek. inversion Ek; subst. lia.
    + destruct (Nat.le_gt_cases k 4) as [Hk|Hk].
      * destruct (Climb k) as (wk' & E & Hak & _); [lia..|].
        rewrite E in Ek. inversion Ek; subst. lia.
      * destruct Drop as (w5 & E5 & Ha5 & Hq5 & Ht5 & Hi5); [lia|].
        replace k with (5 + (k - 5))%nat in Ek by lia.
        rewrite <- take_take_drop, retryRounds_app, E5 in Ek.
        destruct (take (k - 5) (drop 5 rounds)) as [|x rest] eqn:Et.
        -- simpl in Ek. inversion Ek; subst. lia.
        -- rewrite retryRounds_unarmed in Ek by (auto; congruence).
           discriminate.
Qed.

Lemma retries_exhaust_at_five_witness :
  exists w5,
    retryRounds
      (replicate 5 (Samples.r0, NetworkError))
      (sendBatch_settled [Samples.sampleEvent "play"] NetworkError
         Samples.quiet)
    = Some w5
    /\ retryAttempt w5 = 0 /\ retryQueue w5 = [] /\ retryTimeout w5 = None.
Proof.
  destruct (retries_exhaust_at_five Samples.quiet
              [Samples.sampleEvent "play"] NetworkError
              (replicate 6 (Samples.r0, NetworkError)))
    as (_ & H & _).
  - reflexivity.
  - reflexivity.
  - reflexivity.
  - discriminate.
  - reflexivity.
  - repeat constructor.
  - destruct H as (w5 & E & Ha & Hq & Ht & _); [simpl; lia|].
    exists w5. auto.
Defined.

(** C2, as stated, does not hold: the counter is one variable shared by
    all sends, and it can pass five although every retry fails. In the
    sample run a first send fails while the retry of attempt five is in
    flight; its handler finds no timer armed and raises the counter to
    six. The retry, failing next, is given up and resets the counter while
    the new timer stays armed. *)
Lemma counter_shared_between_sends :
  ~ (forall (script : list (Action * Reading)) (w : World),
       everySendFails script ->
       run script Samples.quiet = Some w -> retryAttempt w <= 5).
Proof.
  intros H.
  assert (E : exists w, run Samples.overlappingFailures Samples.quiet = Some w
                        /\ retryAttempt w = 6).
  { eexists. split; [vm_compute; reflexivity|reflexivity]. }
  destruct E as (w & Er & Ea).
  specialize (H Samples.overlappingFailures w).
  rewrite Ea in H. apply H; [|exact Er|reflexivity].
  unfold everySendFails, Samples.overlappingFailures. simpl.
  repeat constructor.
Qed.

(** How the sample run goes on: the retry of attempt five fails, its
    events are dropped and the counter restarts, under the timer armed for
    the other batch. *)
Example overlappingFailures_continue :
  exists w w',
    run Samples.overlappingFailures Samples.quiet = Some w
    /\ retryTimeout w = Some 30000
    /\ step (Settles 0 NetworkError) Samples.r0 w = Some w'
    /\ retryAttempt w' = 0
    /\ retryTimeout w' = Some 30000
    /\ length (retryQueue w') = 1%nat.
Proof.
  eexists. eexists. split; [vm_compute; reflexivity|].
  split; [reflexivity|]. split; [vm_compute; reflexivity|].
  repeat split.
Qed.

(** ** Flush triggers *)

Lemma includes_In (names : list string) (x : string) :
  includes names x = true <-> In x names.
Proof.
  unfold includes. rewrite existsb_exists. split.
  - intros (y & Hy & E). apply String.eqb_eq in E. subst. exact Hy.
  - intros H. exists x. split; [exact H | apply String.eqb_refl].
Qed.

Lemma includes_not_In (names : list string) (x : string) :
  ~ In x names -> includes names x = false.
Proof.
  intros H. destruct (includes names x) eqn:E; [|reflexivity].
  apply includes_In in E. contradiction.
Qed.

(** [trackEvent] either returns at one of its guards, or builds the event,
    appends it and decides on the flush. *)
Lemma trackEvent_cases (player : positive) (name : string) (r : Reading)
  (w : World) :
  (trackEvent player name r w = w
   /\ (isInitialized w = false \/ trackedPlayers w !! player = None))
  \/ exists ev s1 s2,
       isInitialized w = true
       /\ is_Some (trackedPlayers w !! player)
       /\ eventName ev = name
       /\ trackEvent player name r w
          = let w3 := set_eventQueue (eventQueue w ++ [ev])
                        (set_localStorage s2 (set_sessionStorage s1 w)) in
            if includes priorityEvents name
               || (Z.of_nat (length (eventQueue w ++ [ev]))
                   >=? batchSize (config w))
            then sendBatch r w3 else w3.
Proof.
  unfold trackEvent.
  destruct (isInitialized w) eqn:Ei; simpl; [|left; auto].
  destruct (trackedPlayers w !! player) as [pd|] eqn:Et; [|left; auto].
  right.
  session r w. identifiers r (set_sessionStorage s w).
  eexists _, s, s0. split; [reflexivity|]. split; [eauto|].
  split; [|reflexivity]. reflexivity.
Qed.

(** C3. Whatever the pending queue holds, even nothing, tracking a priority
    event appends it and calls [sendBatch] at once: the request carries the
    whole queue with the new event last, and the queue is left empty. *)
Theorem priority_event_flushes_immediately (player : positive)
  (name : string) (r : Reading) (w : World) :
  isInitialized w = true ->
  is_Some (trackedPlayers w !! player) ->
  In name priorityEvents ->
  exists ev rq,
    eventName ev = name
    /\ eventQueue (trackEvent player name r w) = []
    /\ inflight (trackEvent player name r w) = inflight w ++ [rq]
    /\ rq_kind rq = FirstSend
    /\ rq_events rq = eventQueue w ++ [ev]
    /\ p_events (rq_body rq) = eventQueue w ++ [ev].
Proof.
  intros Hi Ht Hp.
  destruct (trackEvent_cases player name r w)
    as [(_ & [Hc|Hc]) | (ev & s1 & s2 & _ & _ & Hn & E)].
  - congruence.
  - rewrite Hc in Ht. destruct Ht; discriminate.
  - rewrite E. cbv zeta. apply includes_In in Hp. rewrite Hp.
    rewrite orb_true_l.
    match goal with
    | |- context [sendBatch r ?w3] =>
        destruct (sendBatch_nonempty r w3) as (rq & s & Es & Hk & He & Hb & _)
    end.
    { simpl. destruct (eventQueue w); discriminate. }
    rewrite Es. simpl in *. exists ev, rq. auto 10.
Qed.

Lemma priority_event_flushes_immediately_witness :
  exists ev rq,
    eventName ev = "pause"
    /\ eventQueue (trackEvent 1 "pause" Samples.r0 Samples.quiet) = []
    /\ inflight (trackEvent 1 "pause" Samples.r0 Samples.quiet) = [rq]
    /\ p_events (rq_body rq) = [ev].
Proof.
  destruct (priority_event_flushes_immediately 1 "pause" Samples.r0
              Samples.quiet)
    as (ev & rq & Hn & Hq & Hi & _ & _ & Hp).
  - reflexivity.
  - exists (mkPlayerData "video-1" 0). reflexivity.
  - simpl. auto.
  - exists ev, rq. auto.
Defined.

(** An occurrence that is not of the priority class and leaves the queue
    short of [batchSize] is queued and nothing is sent. *)
Lemma trackEvent_below_batchSize (player : positive) (name : string)
  (r : Reading) (w : World) :
  ~ In name priorityEvents ->
  Z.of_nat (length (eventQueue w)) + 1 < batchSize (config w) ->
  inflight (trackEvent player name r w) = inflight w
  /\ config (trackEvent player name r w) = config w
  /\ (trackEvent player name r w = w
      \/ exists ev, eventName ev = name
                    /\ eventQueue (trackEvent player name r w)
                       = eventQueue w ++ [ev]).
Proof.
  intros Hp Hn.
  destruct (trackEvent_cases player name r w)
    as [(E & _) | (ev & s1 & s2 & _ & _ & Hname & E)].
  - rewrite E. auto.
  - rewrite E. cbv zeta. rewrite includes_not_In by exact Hp.
    rewrite orb_false_l.
    destruct (Z.of_nat (length (eventQueue w ++ [ev])) >=? batchSize (config w))
      eqn:Eb.
    + rewrite length_app, Nat2Z.inj_add in Eb. change (length [ev]) with 1%nat in Eb.
      apply Z.geb_le in Eb. lia.
    + simpl. repeat split. right. exists ev. auto.
Qed.

(** The flush decision of [trackEvent] for an occurrence outside the
    priority class is the size test alone. *)
Lemma trackEvent_size_trigger (player : positive) (name : string)
  (r : Reading) (w : World) :
  ~ In name priorityEvents ->
  inflight (trackEvent player name r w) <> inflight w ->
  batchSize (config w) <= Z.of_nat (length (eventQueue w)) + 1.
Proof.
  intros Hp Hflush.
  destruct (Z_lt_le_dec (Z.of_nat (length (eventQueue w)) + 1)
                        (batchSize (config w))) as [Hlt|Hle]; [|exact Hle].
  destruct (trackEvent_below_batchSize player name r w Hp Hlt) as (Hi & _).
  contradiction.
Qed.

(** C4, as amended. Occurrences outside the priority class, as long as
    the pending queue with them stays within [batchSize - 1], cause no
    send at all: each one is queued (or skipped by a guard of
    [trackEvent]) and the flush is left to the periodic timer; an
    occurrence outside the priority class causes a send only when the
    queue, with it, has reached [batchSize]. *)
Theorem no_size_flush_below_batchSize
  (calls : list (positive * string * Reading)) (w : World) :
  Forall (fun call => ~ In (nameOf call) priorityEvents) calls ->
  Z.of_nat (length (eventQueue w)) + Z.of_nat (length calls)
    <= batchSize (config w) - 1 ->
  inflight (trackAll calls w) = inflight w
  /\ (exists queued,
        eventQueue (trackAll calls w) = eventQueue w ++ queued
        /\ (length queued <= length calls)%nat)
  /\ forall player name r,
       ~ In name priorityEvents ->
       inflight (trackEvent player name r w) <> inflight w ->
       batchSize (config w) <= Z.of_nat (length (eventQueue w)) + 1.
Proof.
  intros Hp Hn. split; [|split].
  - revert w Hn. induction Hp as [|[[player name] r] rest Hx Hrest IH];
      intros w Hn; [reflexivity|].
    simpl in *. unfold nameOf in Hx. simpl in Hx.
    destruct (trackEvent_below_batchSize player name r w Hx) as (Hi & Hc & Hq);
      [lia|].
    rewrite IH; [exact Hi|]. rewrite Hc.
    destruct Hq as [E | (ev & _ & E)]; rewrite E; [lia|].
    rewrite length_app. simpl. lia.
  - revert w Hn. induction Hp as [|[[player name] r] rest Hx Hrest IH];
      intros w Hn.
    { exists []. rewrite app_nil_r. simpl. auto. }
    simpl in *. unfold nameOf in Hx. simpl in Hx.
    destruct (trackEvent_below_batchSize player name r w Hx) as (Hi & Hc & Hq);
      [lia|].
    destruct (IH (trackEvent player name r w)) as (queued & Eq & Hl).
    { rewrite Hc. destruct Hq as [E | (ev & _ & E)]; rewrite E; [lia|].
      rewrite length_app. simpl. lia. }
    rewrite Eq. destruct Hq as [E | (ev & _ & E)]; rewrite E.
    + exists queued. split; [reflexivity|lia].
    + exists (ev :: queued). rewrite <- app_assoc. simpl. split; [reflexivity|lia].
  - intros player name r. apply trackEvent_size_trigger.
Qed.

Lemma no_size_flush_below_batchSize_witness :
  inflight (trackAll [(1%positive, "seeking", Samples.r0);
                      (1%positive, "seeked", Samples.r0)] Samples.quiet)
  = inflight Samples.quiet.
Proof.
  apply (no_size_flush_below_batchSize
           [(1%positive, "seeking", Samples.r0);
            (1%positive, "seeked", Samples.r0)] Samples.quiet).
  - repeat constructor; unfold nameOf; simpl; intuition discriminate.
  - vm_compute. discriminate.
Defined.

(** C4, as stated, does not hold: with the default [batchSize] of 15 and
    an empty queue, one [play] occurrence is a sequence of fewer than
    [batchSize] calls, and it is sent at once. *)
Lemma priority_event_flushes_below_batchSize :
  ~ (forall calls : list (positive * string * Reading),
       Z.of_nat (length calls) <= batchSize (config Samples.quiet) - 1 ->
       inflight (trackAll calls Samples.quiet) = inflight Samples.quiet).
Proof.
  intros H.
  specialize (H [(1%positive, "play", Samples.r0)]).
  vm_compute in H. specialize (H ltac:(discriminate)). discriminate.
Qed.

Lemma scheduleRetry_idempotent_while_scheduled_witness :
  let w := scheduleRetry Samples.quiet in
  scheduleRetry w = w
  /\ retryAttempt (sendBatch_settled [Samples.sampleEvent "play"]
                     NetworkError w) = 1.
Proof.
  destruct (scheduleRetry_idempotent_while_scheduled
              (scheduleRetry Samples.quiet) 2000 eq_refl)
    as (H1 & _ & H3 & _).
  split; [exact H1|].
  destruct (H3 [Samples.sampleEvent "play"] NetworkError eq_refl)
    as (_ & _ & Ha).
  rewrite Ha. reflexivity.
Defined.

(** ** Sampling of [timeupdate] *)

Lemma Qlt_b_spec (a b : Q) : Qlt_b a b = true <-> (a < b)%Q.
Proof. unfold Qlt_b, Qlt. apply Z.ltb_lt. Qed.

(** The listener's test: a passing draw and strictly more than 500 ms
    since the last accepted occurrence. *)
Lemma timeupdateAccepted_spec (r : Reading) (rate : Q) (pd : PlayerData) :
  timeupdateAccepted r rate pd = true
  <-> (r_random r < rate)%Q /\ 500 < r_now r - lastTimeupdateTracked pd.
Proof.
  unfold timeupdateAccepted.
  rewrite andb_true_iff, Qlt_b_spec, Z.gtb_ltb, Z.ltb_lt. reflexivity.
Qed.

Lemma sendBatch_trackedPlayers (r : Reading) (w : World) :
  trackedPlayers (sendBatch r w) = trackedPlayers w
  /\ config (sendBatch r w) = config w.
Proof.
  destruct (eventQueue w) as [|e q] eqn:E.
  - rewrite sendBatch_empty by exact E. auto.
  - destruct (sendBatch_nonempty r w) as (rq & s & Es & _); [congruence|].
    rewrite Es. auto.
Qed.

Lemma trackEvent_trackedPlayers (player : positive) (name : string)
  (r : Reading) (w : World) :
  trackedPlayers (trackEvent player name r w) = trackedPlayers w
  /\ config (trackEvent player name r w) = config w.
Proof.
  destruct (trackEvent_cases player name r w)
    as [(E & _) | (ev & s1 & s2 & _ & _ & _ & E)]; rewrite E; [auto|].
  cbv zeta.
  match goal with |- context [if ?c then _ else _] => destruct c end.
  - match goal with
    | |- context [sendBatch r ?w3] =>
        destruct (sendBatch_trackedPlayers r w3) as (-> & ->)
    end. auto.
  - auto.
Qed.

(** An accepted occurrence records its clock value for the player. *)
Lemma onTimeupdate_accepted (player : positive) (r : Reading) (w : World)
  (pd : PlayerData) :
  trackedPlayers w !! player = Some pd ->
  timeupdateAccepted r (sampleRate_timeupdate (config w)) pd = true ->
  trackedPlayers (onTimeupdate player r w) !! player
  = Some (mkPlayerData (pd_videoId pd) (r_now r))
  /\ config (onTimeupdate player r w) = config w.
Proof.
  intros Ht Ha. unfold onTimeupdate. rewrite Ht, Ha.
  match goal with
  | |- context [trackEvent player ?n r ?w'] =>
      destruct (trackEvent_trackedPlayers player n r w') as (-> & ->)
  end.
  simpl. rewrite lookup_insert_eq. auto.
Qed.

Lemma onTimeupdate_rejected (player : positive) (r : Reading) (w : World)
  (pd : PlayerData) :
  trackedPlayers w !! player = Some pd ->
  timeupdateAccepted r (sampleRate_timeupdate (config w)) pd = false ->
  onTimeupdate player r w = w.
Proof. intros Ht Ha. unfold onTimeupdate. rewrite Ht, Ha. reflexivity. Qed.

(** Two occurrences for one player less than 500 ms apart (or exactly
    500 ms apart) are never both accepted, whatever the draws. *)
Lemma timeupdate_not_both_accepted (player : positive) (r1 r2 : Reading)
  (w : World) (pd : PlayerData) :
  trackedPlayers w !! player = Some pd ->
  timeupdateAccepted r1 (sampleRate_timeupdate (config w)) pd = true ->
  r_now r2 - r_now r1 <= 500 ->
  onTimeupdate player r2 (onTimeupdate player r1 w)
  = onTimeupdate player r1 w.
Proof.
  intros Ht Ha Hd.
  destruct (onTimeupdate_accepted player r1 w pd Ht Ha) as (Ht1 & Hc1).
  apply (onTimeupdate_rejected player r2 _ _ Ht1).
  destruct (timeupdateAccepted r2 _ _) eqn:E; [|reflexivity].
  apply timeupdateAccepted_spec in E. simpl in E. lia.
Qed.

(** C5, at the boundary. A [timeupdate] of player 1 is accepted at clock
    value 1000; the next one comes exactly 500 ms later, at 1500, with a
    draw of 0.1 below the sample rate 0.2. The listener rejects it (the
    world is unchanged: nothing queued, nothing recorded), where one
    millisecond later it accepts. *)
Theorem timeupdate_at_exactly_500ms_is_rejected :
  let w1 := onTimeupdate 1 (Samples.reading 1000 (1 # 10)) Samples.quiet in
  let tick := Samples.reading 1500 (1 # 10) in
  lastTimeupdateTracked <$> trackedPlayers w1 !! 1%positive = Some 1000
  /\ (r_random tick < sampleRate_timeupdate (config w1))%Q
  /\ r_now tick - 1000 = 500
  /\ onTimeupdate 1 tick w1 = w1
  /\ length (eventQueue (onTimeupdate 1 tick w1)) = length (eventQueue w1)
  /\ length (eventQueue
               (onTimeupdate 1 (Samples.reading 1501 (1 # 10)) w1))
     = S (length (eventQueue w1)).
Proof.
  cbv zeta. split; [reflexivity|]. split; [reflexivity|].
  split; [reflexivity|]. split; [vm_compute; reflexivity|].
  split; vm_compute; reflexivity.
Qed.

(** ** Page teardown *)

(** C10. With both queues empty [handlePageUnload] sends no beacon (and
    builds no [pageUnload] event); otherwise it sends exactly one, to the
    beacon endpoint, whose events are the pending ones, then the retry
    ones, then one final [pageUnload] event. No [fetch] is issued either
    way. *)
Theorem handlePageUnload_beacon (r : Reading) (w : World) :
  (eventQueue w = [] -> retryQueue w = [] ->
   beacons (handlePageUnload r w) = beacons w
   /\ inflight (handlePageUnload r w) = inflight w)
  /\ (eventQueue w ++ retryQueue w <> [] ->
      exists payload final,
        beacons (handlePageUnload r w)
        = beacons w ++ [(apiEndpoint (config w) +:+ "/beacon", payload)]
        /\ p_events payload = eventQueue w ++ retryQueue w ++ [final]
        /\ eventName final = "pageUnload"
        /\ inflight (handlePageUnload r w) = inflight w).
Proof.
  split.
  - intros He Hr. unfold handlePageUnload. simpl. rewrite He, Hr. simpl. auto.
  - intros Hne. unfold handlePageUnload. simpl.
    destruct (eventQueue w ++ retryQueue w) as [|e q] eqn:E; [congruence|].
    session r (set_batchIntervalTimer None w).
    identifiers r (set_sessionStorage s (set_batchIntervalTimer None w)).
    match goal with
    | |- context [getSessionId r ?w'] => session r w'
    end.
    simpl. eexists _, _. split; [reflexivity|]. simpl.
    rewrite app_assoc, E. auto.
Qed.

Lemma handlePageUnload_beacon_witness :
  beacons (handlePageUnload Samples.r0 Samples.quiet) = []
  /\ exists payload final,
       beacons (handlePageUnload Samples.r0 Samples.tracking)
       = [("http://localhost:8080/api/v1/events/beacon", payload)]
       /\ p_events payload = eventQueue Samples.tracking ++ [final]
       /\ eventName final = "pageUnload".
Proof.
  split.
  - apply (handlePageUnload_beacon Samples.r0 Samples.quiet); reflexivity.
  - destruct (handlePageUnload_beacon Samples.r0 Samples.tracking)
      as (_ & H).
    destruct H as (payload & final & Hb & He & Hn & _); [discriminate|].
    exists payload, final. auto.
Defined.

End SDKFacts.

(** * Properties of the collector *)

Module ServerFacts.
Import Server.

(** ** The JSON codec of the models *)

Lemma decodeEventInto_encodeEvent (e : Event) :
  decodeEventInto zeroEvent (encodeEvent e) = Some e.
Proof.
  destruct e as [n v t s u a p te c cd].
  unfold encodeEvent. cbn [CustomData].
  destruct (String.eqb cd "") eqn:Ecd.
  - apply String.eqb_eq in Ecd. subst cd.
    destruct p, te, c; vm_compute; reflexivity.
  - destruct p, te, c; vm_compute; reflexivity.
Qed.

Lemma decodeEvents_encodeEvent (es : list Event) :
  decodeEvents (map encodeEvent es) [] = Some es.
Proof.
  induction es as [|e es IH]; [reflexivity|].
  simpl map. cbn [decodeEvents hd tl].
  rewrite decodeEventInto_encodeEvent, IH. reflexivity.
Qed.

(** C7, as amended. For every [EventBatch] of the collector's model,
    encoding to JSON and decoding back gives the same batch: [clientId],
    [apiKey], [sessionId], [batchId], [events] (each event, in order),
    [timestamp] and [isRetry] are all preserved. The model has no
    [retryAttempt]. *)
Theorem eventBatch_round_trip (b : EventBatch) :
  decodeBatch (encodeBatch b) = Some b.
Proof.
  destruct b as [c k s i [es|] t [|]]; unfold encodeBatch; simpl;
    try rewrite decodeEvents_encodeEvent; reflexivity.
Qed.

(** What the collector makes of a body the SDK has sent. *)
Lemma decodeEventInto_eventJSON (e : SDK.Event) :
  decodeEventInto zeroEvent (SDK.eventJSON e) = Some (Wire.received e).
Proof.
  destruct e as [n [v|] t s [u|] a [p|] [te|] [url ref [title|]]];
    reflexivity.
Qed.

Lemma decodeEvents_eventJSON (es : list SDK.Event) :
  decodeEvents (map SDK.eventJSON es) [] = Some (map Wire.received es).
Proof.
  induction es as [|e es IH]; [reflexivity|].
  simpl map. cbn [decodeEvents hd tl].
  rewrite decodeEventInto_eventJSON, IH. reflexivity.
Qed.

Lemma decodeBatch_payloadJSON (p : SDK.Payload) :
  decodeBatch (SDK.payloadJSON p) = Some (Wire.receivedBatch p).
Proof.
  destruct p as [[c|] [k|] s i es t [r|] [n|]];
    unfold SDK.payloadJSON, Wire.receivedBatch; simpl;
    rewrite decodeEvents_eventJSON; try destruct r; reflexivity.
Qed.

(** C7, as stated, does not hold for [retryAttempt]: the retry payloads
    of attempt 3 and of attempt 4 carry the property on the wire and
    decode to one and the same [EventBatch], whose encoding has no such
    member. *)
Lemma retryAttempt_lost_on_decode :
  field "retryAttempt" (SDK.payloadJSON (Wire.retryPayload 3))
  = Some (JNumber (inject_Z 3))
  /\ exists b,
       decodeBatch (SDK.payloadJSON (Wire.retryPayload 3)) = Some b
       /\ decodeBatch (SDK.payloadJSON (Wire.retryPayload 4)) = Some b
       /\ IsRetry b = true
       /\ field "retryAttempt" (encodeBatch b) = None.
Proof.
  split; [reflexivity|].
  exists (Wire.receivedBatch (Wire.retryPayload 3)).
  repeat split; reflexivity.
Qed.

(** ** The log *)

Lemma string_app_assoc (a b c : string) :
  (a +:+ b) +:+ c = a +:+ (b +:+ c).
Proof.
  induction a as [|x a IH]; [reflexivity|].
  change (String x ((a +:+ b) +:+ c) = String x (a +:+ (b +:+ c))).
  rewrite IH. reflexivity.
Qed.

Lemma string_app_empty (a : string) : a +:+ "" = a.
Proof.
  induction a as [|x a IH]; [reflexivity|].
  change (String x (a +:+ "") = String x a). rewrite IH. reflexivity.
Qed.

(** A call of [Write] appends its data, or on failure some part of it. *)
Lemma fileWrite_spec (data : string) (f : LogFile) :
  match fileWrite data f with
  | (f', true) => content f' = content f +:+ data
  | (f', false) => exists n, content f' = content f +:+ substring 0 n data
  end.
Proof.
  unfold fileWrite. destruct (coming f) as [|[|n] rest]; simpl; eauto.
Qed.

Lemma entries_snoc_app (texts : list string) (t rest : string) :
  entries texts +:+ entry t +:+ rest = entries (texts ++ [t]) +:+ rest.
Proof.
  induction texts as [|x texts IH]; simpl.
  - change ("" +:+ entry t +:+ rest) with (entry t +:+ rest).
    rewrite string_app_assoc. reflexivity.
  - rewrite !string_app_assoc. rewrite IH. reflexivity.
Qed.

(** [http.Error] on a response that has no status yet fixes the status. *)
Lemma statusCode_httpError (msg : string) (code : Z) (w : ResponseWriter) :
  status w = None -> statusCode (httpError msg code w) = code.
Proof.
  intros Hs. unfold statusCode, httpError, Write, WriteHeader. simpl.
  rewrite Hs. reflexivity.
Qed.

Section Logging.

Variable MarshalIndent : Event -> option string.

Lemma logEvent_spec (event : Event) (f : LogFile) :
  match logEvent MarshalIndent event f with
  | (f', None) =>
      exists text, MarshalIndent event = Some text
                   /\ content f' = content f +:+ entry text
  | (f', Some err) =>
      err <> WriteHeaderFailed
      /\ exists part, content f' = content f +:+ part
                      /\ (err = MarshalEventFailed ->
                          part = "" /\ MarshalIndent event = None)
  end.
Proof.
  unfold logEvent.
  destruct (MarshalIndent event) as [text|].
  2:{ split; [discriminate|]. exists "". rewrite string_app_empty. auto. }
  pose proof (fileWrite_spec text f) as H1.
  destruct (fileWrite text f) as [f1 [|]]; simpl.
  - pose proof (fileWrite_spec (nl +:+ nl) f1) as H2.
    destruct (fileWrite (nl +:+ nl) f1) as [f2 [|]]; simpl.
    + exists text. split; [reflexivity|].
      rewrite H2, H1. unfold entry. apply string_app_assoc.
    + split; [discriminate|]. destruct H2 as (n & H2).
      exists (text +:+ substring 0 n (nl +:+ nl)).
      rewrite H2, H1, string_app_assoc. split; [reflexivity|discriminate].
  - split; [discriminate|]. destruct H1 as (n & H1).
    exists (substring 0 n text). split; [exact H1|discriminate].
Qed.

(** The loop over the events: all of them logged, or the ones before
    the first failing event [i] logged in full. *)
Lemma logEvents_spec (events : list Event) :
  forall f : LogFile,
    match logEvents MarshalIndent events f with
    | (f', None) =>
        exists texts, mapM MarshalIndent events = Some texts
                      /\ content f' = content f +:+ entries texts
    | (f', Some err) =>
        err <> WriteHeaderFailed
        /\ exists (i : nat) (event : Event) (texts : list string)
                  (part : string),
             events !! i = Some event
             /\ mapM MarshalIndent (take i events) = Some texts
             /\ length texts = i
             /\ content f' = content f +:+ entries texts +:+ part
             /\ (err = MarshalEventFailed ->
                 part = "" /\ MarshalIndent event = None)
    end.
Proof.
  induction events as [|event rest IH]; intros f.
  - simpl. exists []. split; [reflexivity|]. simpl.
    rewrite string_app_empty. reflexivity.
  - cbn [logEvents].
    pose proof (logEvent_spec event f) as H1.
    destruct (logEvent MarshalIndent event f) as [f1 [err|]] eqn:E1.
    + destruct H1 as (Hne & part & Hc & Hm). split; [exact Hne|].
      exists 0%nat, event, [], part.
      split; [reflexivity|]. split; [reflexivity|]. split; [reflexivity|].
      split; [exact Hc | exact Hm].
    + destruct H1 as (text & Hm & Hc).
      specialize (IH f1).
      destruct (logEvents MarshalIndent rest f1) as [f2 [err|]].
      * destruct IH as (Hne & i & ev & texts & part & Hl & Hmm & Hlen & Hcc & Hp).
        split; [exact Hne|].
        exists (S i), ev, (text :: texts), part.
        split; [exact Hl|]. split.
        { cbn [take mapM]. rewrite Hm. simpl. rewrite Hmm. reflexivity. }
        split; [simpl; congruence|]. split; [|exact Hp].
        rewrite Hcc, Hc. simpl. rewrite !string_app_assoc. reflexivity.
      * destruct IH as (texts & Hmm & Hcc).
        exists (text :: texts). split.
        { cbn [mapM]. rewrite Hm. simpl. rewrite Hmm. reflexivity. }
        rewrite Hcc, Hc. simpl. rewrite !string_app_assoc. reflexivity.
Qed.

Lemma LogBatch_success (batch : EventBatch) (f f' : LogFile) :
  LogBatch MarshalIndent batch f = (f', None) ->
  exists texts,
    mapM MarshalIndent (default [] (Events batch)) = Some texts
    /\ content f' = content f +:+ batchInfo batch +:+ entries texts.
Proof.
  unfold LogBatch.
  pose proof (fileWrite_spec (batchInfo batch) f) as H0.
  destruct (fileWrite (batchInfo batch) f) as [f1 [|]]; simpl; [|discriminate].
  pose proof (logEvents_spec (default [] (Events batch)) f1) as H1.
  intros E. rewrite E in H1. destruct H1 as (texts & Hm & Hc).
  exists texts. split; [exact Hm|].
  rewrite Hc, H0, string_app_assoc. reflexivity.
Qed.

(** When the header itself cannot be written, no event is attempted. *)
Lemma LogBatch_header_failure (batch : EventBatch) (f f' : LogFile) :
  LogBatch MarshalIndent batch f = (f', Some WriteHeaderFailed) ->
  exists n, content f' = content f +:+ substring 0 n (batchInfo batch).
Proof.
  unfold LogBatch.
  pose proof (fileWrite_spec (batchInfo batch) f) as H0.
  destruct (fileWrite (batchInfo batch) f) as [f1 [|]]; simpl.
  - pose proof (logEvents_spec (default [] (Events batch)) f1) as H1.
    intros E. rewrite E in H1. destruct H1 as (Hne & _). congruence.
  - intros E. inversion E; subst. exact H0.
Qed.

(** A call of [Write] that is due to succeed appends all of its data. *)
Lemma fileWrite_succeeds (data : string) (f : LogFile) :
  Forall (eq WriteOk) (take 1 (coming f)) ->
  fileWrite data f
  = (mkLogFile (content f +:+ data) (drop 1 (coming f)), true).
Proof.
  unfold fileWrite. destruct (coming f) as [|[|n] rest]; simpl.
  - reflexivity.
  - rewrite drop_0. reflexivity.
  - intros H. inversion H; subst. discriminate.
Qed.

Lemma Forall_take_plus (l : list WriteResult) (a b : nat) :
  Forall (eq WriteOk) (take (a + b) l) ->
  Forall (eq WriteOk) (take a l)
  /\ Forall (eq WriteOk) (take b (drop a l)).
Proof.
  rewrite <- take_take_drop. apply Forall_app.
Qed.

(** An event that marshals, on a disk whose next two writes succeed, adds
    its entry. *)
Lemma logEvent_succeeds (event : Event) (text : string) (f : LogFile) :
  MarshalIndent event = Some text ->
  Forall (eq WriteOk) (take 2 (coming f)) ->
  logEvent MarshalIndent event f
  = (mkLogFile (content f +:+ entry text) (drop 2 (coming f)), None).
Proof.
  intros Hm Hok. unfold logEvent. rewrite Hm.
  destruct (Forall_take_plus (coming f) 1 1 Hok) as (H1 & H2).
  rewrite (fileWrite_succeeds text f H1). simpl negb. cbv iota.
  rewrite (fileWrite_succeeds (nl +:+ nl)) by exact H2.
  simpl. rewrite drop_drop. unfold entry.
  rewrite string_app_assoc. reflexivity.
Qed.

(** The loop gets through a run of events that marshal while the writes
    succeed, two per event, and goes on with the rest. *)
Lemma logEvents_prefix (pre : list Event) :
  forall (texts : list string) (more : list Event) (f : LogFile),
    mapM MarshalIndent pre = Some texts ->
    Forall (eq WriteOk) (take (2 * length pre) (coming f)) ->
    logEvents MarshalIndent (pre ++ more) f
    = logEvents MarshalIndent more
        (mkLogFile (content f +:+ entries texts)
                   (drop (2 * length pre) (coming f))).
Proof.
  induction pre as [|event pre IH]; intros texts more f Hm Hok.
  - inversion Hm; subst. simpl. rewrite string_app_empty, drop_0.
    destruct f; reflexivity.
  - cbn [mapM] in Hm.
    destruct (MarshalIndent event) as [text|] eqn:Em; [|discriminate].
    simpl in Hm.
    destruct (mapM MarshalIndent pre) as [ts|] eqn:Er; [|discriminate].
    inversion Hm; subst texts. clear Hm.
    replace (2 * length (event :: pre))%nat
      with (2 + 2 * length pre)%nat in * by (simpl; lia).
    destruct (Forall_take_plus _ _ _ Hok) as (H2 & Hrest).
    cbn [app logEvents]. rewrite (logEvent_succeeds event text f Em H2).
    rewrite (IH ts more _ eq_refl) by exact Hrest.
    cbn [content coming entries]. rewrite drop_drop.
    rewrite !string_app_assoc. reflexivity.
Qed.

(** C9. [LogBatch] is not atomic. Let the batch be [pre ++ event :: post],
    with the header and the events of [pre] written without error, and
    let the logging of [event], the event of index [length pre], fail: it
    cannot be marshalled, or the write of its text fails after [n] bytes,
    or the write of its line breaks does. Then [LogBatch] returns that
    error at once, and the file it leaves holds, after what it held
    before, the batch header, the full entries of the events of [pre] in
    order, and the bytes of [event] that got through; nothing is taken
    back, and nothing of [post] is attempted (the outcomes of later
    writes are still to come). The synchronous handler hands that file
    on and answers 500. *)
Theorem LogBatch_is_not_atomic (batch : EventBatch) (f : LogFile)
  (pre post : list Event) (event : Event) (texts : list string) :
  default [] (Events batch) = pre ++ event :: post ->
  mapM MarshalIndent pre = Some texts ->
  Forall (eq WriteOk) (take (1 + 2 * length pre) (coming f)) ->
  let kept := content f +:+ batchInfo batch +:+ entries texts in
  let left := drop (1 + 2 * length pre) (coming f) in
  let answers500 (f' : LogFile) :=
    forall (r : HttpRequest) (w : ResponseWriter),
      Method r = "POST" -> decodeBody r = Some batch -> status w = None ->
      fst (HandleEvents MarshalIndent r f w) = f'
      /\ statusCode (snd (HandleEvents MarshalIndent r f w))
         = StatusInternalServerError in
  (MarshalIndent event = None ->
   LogBatch MarshalIndent batch f
   = (mkLogFile kept left, Some MarshalEventFailed)
   /\ answers500 (mkLogFile kept left))
  /\ (forall (text : string) (n : nat) (rest : list WriteResult),
        MarshalIndent event = Some text ->
        left = WriteFails n :: rest ->
        LogBatch MarshalIndent batch f
        = (mkLogFile (kept +:+ substring 0 n text) rest,
           Some WriteEventFailed)
        /\ answers500 (mkLogFile (kept +:+ substring 0 n text) rest))
  /\ (forall (text : string) (n : nat) (rest : list WriteResult),
        MarshalIndent event = Some text ->
        left = WriteOk :: WriteFails n :: rest ->
        LogBatch MarshalIndent batch f
        = (mkLogFile (kept +:+ text +:+ substring 0 n (nl +:+ nl)) rest,
           Some WriteLineBreaksFailed)
        /\ answers500
             (mkLogFile (kept +:+ text +:+ substring 0 n (nl +:+ nl)) rest)).
Proof.
  intros He Hm Hok kept left answers500.
  destruct (Forall_take_plus _ _ _ Hok) as (H1 & Hpre).
  assert (Hrun : LogBatch MarshalIndent batch f
                 = logEvents MarshalIndent (event :: post)
                     (mkLogFile kept left)).
  { unfold LogBatch. rewrite (fileWrite_succeeds _ f H1). simpl negb.
    cbv iota. rewrite He.
    rewrite (logEvents_prefix pre texts) by assumption.
    cbn [content coming]. rewrite drop_drop. subst kept left.
    rewrite string_app_assoc.
    replace (2 * length pre + 1)%nat with (1 + 2 * length pre)%nat by lia.
    reflexivity. }
  assert (Hans : forall f' err,
             LogBatch MarshalIndent batch f = (f', Some err) ->
             answers500 f').
  { intros f' err E r w Hmeth Hd Hs. unfold HandleEvents.
    rewrite Hmeth, Hd, E. simpl. split; [reflexivity|].
    apply statusCode_httpError, Hs. }
  split; [|split].
  - intros Hnone.
    assert (E : LogBatch MarshalIndent batch f
                = (mkLogFile kept left, Some MarshalEventFailed)).
    { rewrite Hrun. cbn [logEvents]. unfold logEvent. rewrite Hnone.
      reflexivity. }
    split; [exact E | exact (Hans _ _ E)].
  - intros text n rest Htext Hleft.
    assert (E : LogBatch MarshalIndent batch f
                = (mkLogFile (kept +:+ substring 0 n text) rest,
                   Some WriteEventFailed)).
    { rewrite Hrun, Hleft. cbn [logEvents]. unfold logEvent, fileWrite.
      rewrite Htext. reflexivity. }
    split; [exact E | exact (Hans _ _ E)].
  - intros text n rest Htext Hleft.
    assert (E : LogBatch MarshalIndent batch f
                = (mkLogFile (kept +:+ text +:+ substring 0 n (nl +:+ nl))
                             rest,
                   Some WriteLineBreaksFailed)).
    { rewrite Hrun, Hleft. cbn [logEvents]. unfold logEvent, fileWrite.
      rewrite Htext. simpl. rewrite string_app_assoc. reflexivity. }
    split; [exact E | exact (Hans _ _ E)].
Qed.

(** How a call of [Write] can end, read back from its result. *)
Lemma fileWrite_cases (data : string) (f : LogFile) :
  (snd (fileWrite data f) = true
   /\ Forall (eq WriteOk) (take 1 (coming f))
   /\ coming (fst (fileWrite data f)) = drop 1 (coming f))
  \/ (snd (fileWrite data f) = false
      /\ exists n rest, coming f = WriteFails n :: rest).
Proof.
  unfold fileWrite. destruct (coming f) as [|[|n] rest]; simpl.
  - left. repeat constructor.
  - left. rewrite drop_0. repeat constructor.
  - right. eauto.
Qed.

(** Conversely, every failure of the loop is of one of the three kinds
    above, at the first event whose logging fails. *)
Lemma logEvents_failure_position (events : list Event) :
  forall (f f' : LogFile) (err : LogError),
    logEvents MarshalIndent events f = (f', Some err) ->
    exists (pre post : list Event) (event : Event) (texts : list string),
      events = pre ++ event :: post
      /\ mapM MarshalIndent pre = Some texts
      /\ Forall (eq WriteOk) (take (2 * length pre) (coming f))
      /\ (MarshalIndent event = None
          \/ exists text n rest,
               MarshalIndent event = Some text
               /\ (drop (2 * length pre) (coming f) = WriteFails n :: rest
                   \/ drop (2 * length pre) (coming f)
                      = WriteOk :: WriteFails n :: rest)).
Proof.
  induction events as [|event rest IH]; intros f f' err E;
    [discriminate|].
  cbn [logEvents] in E.
  destruct (MarshalIndent event) as [text|] eqn:Em.
  2:{ exists [], rest, event, []. simpl. rewrite Em. repeat split; auto. }
  destruct (fileWrite_cases text f)
    as [(Hk1 & Hok1 & Hc1) | (Hk1 & n & r1 & Hc1)].
  2:{ exists [], rest, event, []. simpl. rewrite Em.
      repeat split; eauto 10. }
  destruct (fileWrite_cases (nl +:+ nl) (fst (fileWrite text f)))
    as [(Hk2 & Hok2 & Hc2) | (Hk2 & n & r2 & Hc2)].
  2:{ exists [], rest, event, []. simpl. rewrite Em.
      repeat split; auto. right. exists text, n, r2. split; [reflexivity|].
      right. rewrite Hc1 in Hc2.
      destruct (coming f) as [|[|m] cs]; simpl in *; try discriminate.
      - rewrite drop_0 in Hc2. congruence.
      - inversion Hok1 as [|? ? Hbad]; discriminate. }
  assert (E1 : logEvent MarshalIndent event f
               = (fst (fileWrite (nl +:+ nl) (fst (fileWrite text f))),
                  None)).
  { unfold logEvent. rewrite Em.
    destruct (fileWrite text f) as [f1 k1]. simpl in *. subst k1. simpl.
    destruct (fileWrite (nl +:+ nl) f1) as [f2 k2]. simpl in *. subst k2.
    reflexivity. }
  rewrite E1 in E.
  destruct (IH _ _ _ E) as (pre & post & ev & texts & -> & Hm & Hok & Hcase).
  assert (Hcf : coming (fst (fileWrite (nl +:+ nl) (fst (fileWrite text f))))
                = drop 2 (coming f)).
  { rewrite Hc2, Hc1, drop_drop. reflexivity. }
  assert (Hdd : forall k, drop k (drop 2 (coming f))
                          = drop (2 + k) (coming f)).
  { intros k. rewrite drop_drop. reflexivity. }
  rewrite Hcf in Hok, Hcase. rewrite Hdd in Hcase.
  exists (event :: pre), post, ev, (text :: texts).
  split; [reflexivity|]. split.
  { cbn [mapM]. rewrite Em. simpl. rewrite Hm. reflexivity. }
  replace (2 * length (event :: pre))%nat
    with (2 + 2 * length pre)%nat by (simpl; lia).
  split; [|exact Hcase].
  rewrite <- take_take_drop. apply Forall_app. split; [|exact Hok].
  change 2%nat with (1 + 1)%nat. rewrite <- take_take_drop.
  apply Forall_app. split; [exact Hok1|]. rewrite <- Hc1. exact Hok2.
Qed.

Lemma LogBatch_failure_position (batch : EventBatch) (f f' : LogFile)
  (err : LogError) :
  LogBatch MarshalIndent batch f = (f', Some err) ->
  err <> WriteHeaderFailed ->
  exists (pre post : list Event) (event : Event) (texts : list string),
    default [] (Events batch) = pre ++ event :: post
    /\ mapM MarshalIndent pre = Some texts
    /\ Forall (eq WriteOk) (take (1 + 2 * length pre) (coming f))
    /\ (MarshalIndent event = None
        \/ exists text n rest,
             MarshalIndent event = Some text
             /\ (drop (1 + 2 * length pre) (coming f) = WriteFails n :: rest
                 \/ drop (1 + 2 * length pre) (coming f)
                    = WriteOk :: WriteFails n :: rest)).
Proof.
  intros E Hne. unfold LogBatch in E.
  destruct (fileWrite_cases (batchInfo batch) f)
    as [(Hk & Hok & Hc) | (Hk & _)];
    destruct (fileWrite (batchInfo batch) f) as [f1 k]; simpl in *;
    subst k; simpl in E; [|inversion E; subst; congruence].
  destruct (logEvents_failure_position _ _ _ _ E)
    as (pre & post & event & texts & He & Hm & Hoks & Hcase).
  assert (Hdd : forall k, drop k (drop 1 (coming f))
                          = drop (1 + k) (coming f)).
  { intros k. rewrite drop_drop. reflexivity. }
  rewrite Hc in Hoks, Hcase. rewrite Hdd in Hcase.
  exists pre, post, event, texts.
  split; [exact He|]. split; [exact Hm|]. split; [|exact Hcase].
  change (Forall (eq WriteOk) (take (1 + 2 * length pre) (coming f))).
  rewrite <- take_take_drop. apply Forall_app. auto.
Qed.

(** C8, as amended. A request whose method is not POST is answered 405
    by both handlers, and a POST that is decoded and logged is answered
    200 with the JSON acknowledgement [{message, status}] by the
    synchronous handler and 204 with an empty body by the beacon handler.
    A POST whose body does not decode is answered 400 by the synchronous
    handler only: the beacon handler writes nothing, which the client
    receives as 200 with an empty body. *)
Theorem handlers_status (r : HttpRequest) (f : LogFile) (w : ResponseWriter) :
  status w = None -> body w = [] ->
  (Method r <> "POST" ->
   HandleEvents MarshalIndent r f w
   = (f, httpError "Method not allowed" StatusMethodNotAllowed w)
   /\ HandleBeacons MarshalIndent r f w
      = (f, httpError "Method not allowed" StatusMethodNotAllowed w)
   /\ statusCode (httpError "Method not allowed" StatusMethodNotAllowed w)
      = 405)
  /\ (Method r = "POST" -> decodeBody r = None ->
      fst (HandleEvents MarshalIndent r f w) = f
      /\ statusCode (snd (HandleEvents MarshalIndent r f w)) = 400
      /\ HandleBeacons MarshalIndent r f w = (f, w)
      /\ statusCode w = 200)
  /\ (forall (batch : EventBatch) (f1 : LogFile),
        Method r = "POST" -> decodeBody r = Some batch ->
        LogBatch MarshalIndent batch f = (f1, None) ->
        fst (HandleEvents MarshalIndent r f w) = f1
        /\ statusCode (snd (HandleEvents MarshalIndent r f w)) = 200
        /\ body (snd (HandleEvents MarshalIndent r f w))
           = [Encoded (JObject
                [("message",
                  JString ("Processed "
                           +:+ pretty (length (default [] (Events batch)))
                           +:+ " events"));
                 ("status", JString "success")])]
        /\ fst (HandleBeacons MarshalIndent r f w) = f1
        /\ statusCode (snd (HandleBeacons MarshalIndent r f w)) = 204
        /\ body (snd (HandleBeacons MarshalIndent r f w)) = []).
Proof.
  intros Hs Hb. split; [|split].
  - intros Hm. apply String.eqb_neq in Hm.
    unfold HandleEvents, HandleBeacons. rewrite Hm. simpl.
    repeat split. apply statusCode_httpError, Hs.
  - intros Hm Hd. unfold HandleEvents, HandleBeacons.
    rewrite Hm, Hd. simpl. repeat split.
    + apply statusCode_httpError, Hs.
    + unfold statusCode. rewrite Hs. reflexivity.
  - intros batch f1 Hm Hd Hl. unfold HandleEvents, HandleBeacons.
    rewrite Hm, Hd, Hl. simpl.
    unfold statusCode, Write, WriteHeader. simpl. rewrite Hs. simpl.
    rewrite Hb. repeat split; reflexivity.
Qed.

End Logging.

(** The failing disk of the samples: the header and the first event
    are in the file, the second event is cut after three bytes, and the
    client is told 500. *)
Example failingLog_keeps_prefix :
  LogBatch ServerSamples.marshal ServerSamples.twoEvents
    ServerSamples.failingLog
  = (mkLogFile (batchInfo ServerSamples.twoEvents
                +:+ entry "{ eventName: play }" +:+ "{ e") [],
     Some WriteEventFailed).
Proof. reflexivity. Qed.

Lemma LogBatch_is_not_atomic_witness :
  LogBatch ServerSamples.marshal ServerSamples.twoEvents
    ServerSamples.failingLog
  = (mkLogFile (batchInfo ServerSamples.twoEvents
                +:+ entry "{ eventName: play }" +:+ "{ e") [],
     Some WriteEventFailed)
  /\ statusCode
       (snd (HandleEvents ServerSamples.marshal
               (ServerSamples.post (encodeBatch ServerSamples.twoEvents))
               ServerSamples.failingLog freshResponse))
     = 500.
Proof.
  destruct (LogBatch_is_not_atomic ServerSamples.marshal
              ServerSamples.twoEvents ServerSamples.failingLog
              [ServerSamples.named "play"] [] (ServerSamples.named "pause")
              ["{ eventName: play }"])
    as (_ & H & _).
  - reflexivity.
  - reflexivity.
  - repeat constructor.
  - destruct (H "{ eventName: pause }" 3%nat [] eq_refl eq_refl)
      as (E & Hh).
    split; [exact E|].
    apply (Hh (ServerSamples.post (encodeBatch ServerSamples.twoEvents))
              freshResponse); reflexivity.
Defined.

(** C8, as stated, does not hold on the beacon endpoint: a POST whose
    body is not JSON gets no 400 there. *)
Lemma beacon_malformed_body_is_not_400 :
  ~ (forall (marshal : Event -> option string) (r : HttpRequest)
            (f : LogFile),
       Method r = "POST" -> decodeBody r = None ->
       statusCode (snd (HandleBeacons marshal r f freshResponse))
       = StatusBadRequest).
Proof.
  intros H.
  specialize (H ServerSamples.marshal (mkHttpRequest "POST" None)
                ServerSamples.emptyLog eq_refl eq_refl).
  discriminate H.
Qed.

Lemma handlers_status_witness :
  statusCode (snd (HandleEvents ServerSamples.marshal
                     (mkHttpRequest "GET" None) ServerSamples.emptyLog
                     freshResponse)) = 405
  /\ statusCode (snd (HandleEvents ServerSamples.marshal
                        (ServerSamples.post (JString "oops"))
                        ServerSamples.emptyLog freshResponse)) = 400
  /\ statusCode (snd (HandleEvents ServerSamples.marshal
                        (ServerSamples.post
                           (encodeBatch ServerSamples.twoEvents))
                        ServerSamples.emptyLog freshResponse)) = 200
  /\ statusCode (snd (HandleBeacons ServerSamples.marshal
                        (ServerSamples.post
                           (encodeBatch ServerSamples.twoEvents))
                        ServerSamples.emptyLog freshResponse)) = 204.
Proof.
  split; [|split].
  - destruct (handlers_status ServerSamples.marshal
                (mkHttpRequest "GET" None) ServerSamples.emptyLog
                freshResponse eq_refl eq_refl) as (H & _).
    destruct H as (E & _ & Hc); [discriminate|].
    rewrite E. exact Hc.
  - destruct (handlers_status ServerSamples.marshal
                (ServerSamples.post (JString "oops")) ServerSamples.emptyLog
                freshResponse eq_refl eq_refl) as (_ & H & _).
    destruct H as (_ & Hc & _); [reflexivity..|]. exact Hc.
  - destruct (handlers_status ServerSamples.marshal
                (ServerSamples.post (encodeBatch ServerSamples.twoEvents))
                ServerSamples.emptyLog
                freshResponse eq_refl eq_refl) as (_ & _ & H).
    destruct (H ServerSamples.twoEvents
                (fst (LogBatch ServerSamples.marshal ServerSamples.twoEvents
                        ServerSamples.emptyLog)))
      as (_ & H200 & _ & _ & H204 & _); [reflexivity..|].
    split; [exact H200 | exact H204].
Defined.

End ServerFacts.
